(** * backup-folder: the incremental backup engine of [index.js]

    A shallow embedding of [index.js] (walk, withRetries, humanFileSize,
    the command line, the upload closure and [main]) and the properties of
    its incremental-sync logic.

    Conventions of the embedding.
    - Instants are integers: milliseconds since the POSIX epoch, as
      [Date.prototype.getTime] and [stats.mtimeMs] give them.  [NaN] (an
      invalid [Date]) is [None].
    - An asynchronous function is a state transformer that returns, throws
      or leaves the process ([process.exit]).
    - The text of the sidecar file is represented by what [JSON.parse] makes
      of it, and a [Date] by its instant, in memory and in the file.
    - The upload tasks are run one after the other when the queue is
      drained: one of the schedules of the concurrent program.
    - The platform is POSIX ([isWinows] is false).
    - For the engine, command-line validation (lines 117-146) has
      succeeded and its results are the fields of [Config]; the validation
      itself is [startup]. *)

From Stdlib Require Import ZArith List String Ascii Bool Arith Lia.
Import ListNotations.

Set Warnings "-register-all".

Open Scope string_scope.
Open Scope Z_scope.

(** ** JavaScript values *)

(** An [Error] object: the two properties the program reads. *)
Record JSError := mkError { code : option string; message : string }.

(** A thrown value: [null] ([withRetries] starts with [lastError = null]) or
    an [Error]. *)
Inductive Thrown :=
| TNull
| TError (e : JSError).

(** The [TypeError] of a property read on [null]. *)
Definition TypeError_null (prop : string) : JSError :=
  mkError None ("Cannot read properties of null (reading '" ++ prop ++ "')").

(** How an asynchronous computation ends. *)
Inductive Outcome (A : Type) :=
| Ret (a : A)
| Throw (e : Thrown)
| Exit (exit_code : Z).
Arguments Ret {A} a.
Arguments Throw {A} e.
Arguments Exit {A} exit_code.

(** An asynchronous computation on the state [St]. *)
Definition M (St A : Type) := St -> Outcome A * St.

Definition ret {St A} (a : A) : M St A := fun s => (Ret a, s).

(** [await m] followed by [k]; a throw or an exit ends both. *)
Definition bind {St A B} (m : M St A) (k : A -> M St B) : M St B :=
  fun s =>
    match m s with
    | (Ret a, s1) => k a s1
    | (Throw e, s1) => (Throw e, s1)
    | (Exit c, s1) => (Exit c, s1)
    end.

(** A side effect that cannot fail. *)
Definition effect {St} (f : St -> St) : M St unit := fun s => (Ret tt, f s).

Declare Scope js_scope.
Delimit Scope js_scope with js.
Notation "x <- m ;; k" := (bind m (fun x => k))
  (at level 61, m at next level, right associativity) : js_scope.
Notation "m ;;; k" := (bind m (fun _ => k))
  (at level 61, right associativity) : js_scope.
Open Scope js_scope.

(** ** withRetries (lines 76-90) *)

Section Retry.
Context {St A : Type}.

(** The effect of [logError(msg)] on the state. *)
Variable logError : string -> St -> St.

(** The [while (actualRetries < retries)] loop; [remaining] is
    [retries - actualRetries].  In the [catch], [e.message] on a thrown
    [null] is itself a [TypeError], which leaves the function. *)
Fixpoint withRetries_loop (fn : M St A) (remaining : nat) (lastError : Thrown)
  : M St A :=
  fun s =>
    match remaining with
    | O => (Throw lastError, s)
    | S r =>
        match fn s with
        | (Ret a, s1) => (Ret a, s1)
        | (Throw TNull, s1) => (Throw (TError (TypeError_null "message")), s1)
        | (Throw (TError e), s1) =>
            withRetries_loop fn r (TError e) (logError (message e) s1)
        | (Exit c, s1) => (Exit c, s1)
        end
    end.

(** [withRetries(fn, {retries})] *)
Definition withRetries (fn : M St A) (retries : nat) : M St A :=
  withRetries_loop fn retries TNull.
End Retry.

(** The default of the [retries] option. *)
Definition default_retries : nat := 3.






(** ** JSON values and the sidecar file *)

(** A value as [JSON.parse] returns it and [JSON.stringify] takes it.
    [JDate t] is the instant [t]: a [Date] object in memory and, in the file,
    the ISO-8601 string [Date.prototype.toJSON] writes for it (a non-empty
    string that [new Date] reads back as [t]).  Numbers are integers; the
    program writes none.  An object is the list of its properties in
    insertion order. *)
Inductive JSON :=
| JNull
| JBool (b : bool)
| JNum (n : Z)
| JStr (s : string)
| JDate (t : Z)
| JArr (items : list JSON)
| JObj (fields : list (string * JSON)).

Fixpoint lookup (k : string) (fs : list (string * JSON)) : option JSON :=
  match fs with
  | [] => None
  | (k', v) :: fs' => if String.eqb k k' then Some v else lookup k fs'
  end.

(** [j.k] for [j] other than [null]; [None] is [undefined]. *)
Definition get_prop (j : JSON) (k : string) : option JSON :=
  match j with
  | JObj fs => lookup k fs
  | _ => None
  end.

(** [delete j.k] *)
Definition delete_prop (j : JSON) (k : string) : JSON :=
  match j with
  | JObj fs => JObj (filter (fun kv => negb (String.eqb k (fst kv))) fs)
  | _ => j
  end.

(** [!!v] *)
Definition truthy (v : option JSON) : bool :=
  match v with
  | None => false
  | Some JNull => false
  | Some (JBool b) => b
  | Some (JNum n) => negb (n =? 0)
  | Some (JStr s) => negb (String.eqb s "")
  | Some (JDate _) => true
  | Some (JArr _) => true
  | Some (JObj _) => true
  end.

(** What [fs.readFile(metadataFilePath)] followed by [JSON.parse] gives: the
    read rejects with [e] (absent file: [code e = Some "ENOENT"]), the text
    is not JSON ([SyntaxError], which has no [code]), or the text parses. *)
Inductive ReadResult :=
| ReadFails (e : JSError)
| Unparsable (msg : string)
| Parsed (j : JSON).

(** ** The source directory *)

(** The result of [fs.lstat] with the [path] property [walk] adds. *)
Record Stats := mkStats { path : string; size : Z; mtimeMs : Z }.

(** A directory entry: a regular file with its size and modification time,
    a directory ([unreadable]: the error of [fs.opendir] on it, if any), or
    anything else (symbolic link, socket, ...). *)
Inductive Dirent :=
| DFile (name : string) (fsize fmtime : Z)
| DDir (name : string) (unreadable : option JSError) (entries : list Dirent)
| DOther (name : string).

(** The part of the file system a run sees: what reading the sidecar
    gives, the error of [fs.opendir(source)], if any, and the entries of the
    source directory. *)
Record Disk := mkDisk {
  sidecar : ReadResult;
  root_unreadable : option JSError;
  root : list Dirent
}.

(** ** Paths *)

(** [s] ends with the separator. *)
Definition ends_with_sep (s : string) : bool :=
  match String.length s with
  | O => false
  | S n => String.eqb (String.substring n 1 s) "/"
  end.

(** [dir] with one separator at its end. *)
Definition with_sep (dir : string) : string :=
  if ends_with_sep dir then dir else dir ++ "/".

(** [path.join(dir, name)] for a normalised [dir] and a relative [name]. *)
Definition path_join (dir name : string) : string := with_sep dir ++ name.

(** [path.relative(from, to)] for [to] below [from]. *)
Definition path_relative (from to : string) : string :=
  let p := with_sep from in
  if String.prefix p to
  then String.substring (String.length p) (String.length to - String.length p) to
  else to.

(** [s.substring(1)] *)
Definition substring1 (s : string) : string :=
  String.substring 1 (String.length s - 1) s.

(** ** walk (lines 92-104) *)

(** The files a generator yields, then the error it throws, if any. *)
Definition Yielded := (list Stats * option Thrown)%type.

(** The [for await] over the entries of a directory: what the visits of
    the entries yield, up to the first error. *)
Definition walk_seq (visit : Dirent -> Yielded) : list Dirent -> Yielded :=
  fix go (l : list Dirent) : Yielded :=
    match l with
    | [] => ([], None)
    | d :: l' =>
        match visit d with
        | (ys, Some e) => (ys, Some e)
        | (ys, None) => let (zs, r) := go l' in ((ys ++ zs)%list, r)
        end
    end.

(** One iteration of the [for await] over the entries of [dir]: a
    directory is walked, a regular file is yielded with its stats
    ([fs.lstat] is taken to succeed), anything else is skipped. *)
Fixpoint walk_entry (dir : string) (d : Dirent) : Yielded :=
  match d with
  | DFile n sz mt => ([mkStats (path_join dir n) sz mt], None)
  | DDir n (Some e) _ => ([], Some (TError e))
  | DDir n None ents => walk_seq (walk_entry (path_join dir n)) ents
  | DOther _ => ([], None)
  end.

(** [walk(source)] *)
Definition walk (dir : string) (d : Disk) : Yielded :=
  match root_unreadable d with
  | Some e => ([], Some (TError e))
  | None => walk_seq (walk_entry dir) (root d)
  end.

(** ** Configuration, environment and state of a run *)

(** The module-level constants computed from the command line. *)
Record Config := mkConfig {
  source : string;
  destinationDir : string;
  onlyPrint : bool;
  quiet : bool
}.

(** What the program takes from its runtime and from the object store.
    - [bucket_upload earlier local dest]: the outcome of
      [storageBucket.upload(local, {destination: dest})] after the calls
      [earlier]; [None] resolves, [Some e] rejects with [e].
    - [Date_parse v]: [new Date(v).getTime()] for a string that is not an ISO
      instant, an array or an object (text parsing left to the engine).
    - [JSON_stringify v]: [JSON.stringify(v, null, '\t')]; only its length is
      used. *)
Record Runtime := mkRuntime {
  bucket_upload : list (string * string) -> string -> string -> option JSError;
  Date_parse : JSON -> option Z;
  JSON_stringify : JSON -> string
}.

(** The argument of [upload]: a [Stats] yielded by [walk], or the object
    literal of line 242, which has no [mtimeMs]. *)
Record UploadTask := mkTask {
  task_path : string;
  task_size : Z;
  task_mtimeMs : option Z
}.

Definition task_of_file (f : Stats) : UploadTask :=
  mkTask (path f) (size f) (Some (mtimeMs f)).

(** The lines [console.log] prints, by the values they interpolate. *)
Inductive OutLine :=
| LFile (num : Z) (label dest : string) (bytes : Z)
| LDone (i : Z)
| LWaiting
| LAllUploaded
| LSummary (label : string) (uploadedFiles files uploadedBytes bytes : Z)
| LDoneIn (timeTaken : Z).

(** The disk, the two output streams, the calls made to the object store,
    the scheduler ([queue]: tasks submitted and not yet run; [submitted]:
    every call of [upload] so far, in order) and the counters the upload
    closure shares with [main]. *)
Record State := mkState {
  disk : Disk;
  stdout : list OutLine;
  stderr : list string;
  puts : list (string * string);
  queue : list UploadTask;
  submitted : list UploadTask;
  fileNum : Z;
  totalUploadedFiles : Z;
  totalUploadedSize : Z
}.

Definition console_log (l : OutLine) (st : State) : State :=
  mkState (disk st) (stdout st ++ [l]) (stderr st) (puts st) (queue st)
    (submitted st) (fileNum st) (totalUploadedFiles st) (totalUploadedSize st).

(** [logError] (lines 15-22) on a string. *)
Definition logError (msg : string) (st : State) : State :=
  mkState (disk st) (stdout st) (stderr st ++ [msg]) (puts st) (queue st)
    (submitted st) (fileNum st) (totalUploadedFiles st) (totalUploadedSize st).

(** [logError] on a caught value: the stack or message of an [Error], the
    value itself otherwise. *)
Definition logError_thrown (e : Thrown) : State -> State :=
  logError match e with TNull => "null" | TError err => message err end.

Definition record_put (call : string * string) (st : State) : State :=
  mkState (disk st) (stdout st) (stderr st) (puts st ++ [call]) (queue st)
    (submitted st) (fileNum st) (totalUploadedFiles st) (totalUploadedSize st).

Definition set_disk (d : Disk) (st : State) : State :=
  mkState d (stdout st) (stderr st) (puts st) (queue st)
    (submitted st) (fileNum st) (totalUploadedFiles st) (totalUploadedSize st).

Definition set_queue (q : list UploadTask) (st : State) : State :=
  mkState (disk st) (stdout st) (stderr st) (puts st) q
    (submitted st) (fileNum st) (totalUploadedFiles st) (totalUploadedSize st).

(** [++fileNum] *)
Definition incr_fileNum (st : State) : State :=
  mkState (disk st) (stdout st) (stderr st) (puts st) (queue st)
    (submitted st) (fileNum st + 1) (totalUploadedFiles st) (totalUploadedSize st).

(** [totalUploadedFiles++; totalUploadedSize += bytes] *)
Definition count_uploaded (bytes : Z) (st : State) : State :=
  mkState (disk st) (stdout st) (stderr st) (puts st) (queue st)
    (submitted st) (fileNum st) (totalUploadedFiles st + 1)
    (totalUploadedSize st + bytes).

(** The state of a process that starts on the disk [d]. *)
Definition start (d : Disk) : State := mkState d [] [] [] [] [] 0 0 0.

Definition sidecar_name : string := ".backup-folder.json".

(** [new Date(v).getTime()] *)
Definition new_Date_getTime (rt : Runtime) (v : JSON) : option Z :=
  match v with
  | JNull => Some 0
  | JBool b => Some (if b then 1 else 0)
  | JNum n => if Z.abs n <=? 8640000000000000 then Some n else None
  | JDate t => Some t
  | JStr _ | JArr _ | JObj _ => Date_parse rt v
  end.

(** [file.mtimeMs >= lastUploadTimeMs]; a comparison with [NaN] is false. *)
Definition shouldUpload (fileModifiedTime : Z) (watermark : option Z) : bool :=
  match watermark with
  | Some t => t <=? fileModifiedTime
  | None => false
  end.

(** The entry of directory [d] is called [n]. *)
Definition has_name (n : string) (d : Dirent) : bool :=
  match d with
  | DFile n' _ _ => String.eqb n n'
  | DDir n' _ _ => String.eqb n n'
  | DOther n' => String.eqb n n'
  end.

(** The regular file called [n] after it is overwritten. *)
Definition restat (n : string) (bytes now : Z) (d : Dirent) : Dirent :=
  match d with
  | DFile n' _ _ => if String.eqb n n' then DFile n' bytes now else d
  | _ => d
  end.

(** A directory after the file [n] is written: the regular file of that
    name gets new stats, or is created. *)
Definition write_entry (n : string) (bytes now : Z) (ents : list Dirent)
  : list Dirent :=
  if existsb (has_name n) ents
  then map (restat n bytes now) ents
  else (ents ++ [DFile n bytes now])%list.

(** [fs.writeFile(metadataFilePath, metadataFileContents)], taken to
    succeed: the sidecar now parses as [j], and its modification time is
    taken to be the last clock reading, [now]. *)
Definition writeFile_sidecar (j : JSON) (bytes now : Z) (d : Disk) : Disk :=
  mkDisk (Parsed j) (root_unreadable d)
    (write_entry sidecar_name bytes now (root d)).

(** ** The program *)

Section Program.
Variable rt : Runtime.
Variable cfg : Config.

(** line 153 *)
Definition metadataFilePath : string := path_join (source cfg) sidecar_name.

(** line 177 *)
Definition uploadedLabel : string :=
  if onlyPrint cfg then "will upload" else "uploaded".

(** [storageBucket.upload(local, {destination: dest})] *)
Definition storage_upload (local dest : string) : M State unit :=
  fun st =>
    (match bucket_upload rt (puts st) local dest with
     | None => Ret tt
     | Some e => Throw (TError e)
     end,
     record_put (local, dest) st).

(** Lines 190-192 *)
Definition print_file_line (file : UploadTask) (destination : string)
    (st : State) : State :=
  if quiet cfg then st
  else
    let st1 := incr_fileNum st in
    console_log
      (LFile (fileNum st1) uploadedLabel destination (task_size file)) st1.

(** Line 181: [path.relative(source, file.path)] *)
Definition destination_of (file : UploadTask) : string :=
  path_relative (source cfg) (task_path file).

(** The arguments of [storageBucket.upload] for [file] (lines 186-188). *)
Definition put_of (file : UploadTask) : string * string :=
  (task_path file,
   substring1 (path_join (destinationDir cfg) (destination_of file))).

(** The closure given to [queue.fn] (lines 180-195). *)
Definition upload_task (file : UploadTask) : M State unit :=
  (if onlyPrint cfg then ret tt
   else withRetries logError
          (storage_upload (fst (put_of file)) (snd (put_of file)))
          default_retries) ;;;
  effect (print_file_line file (destination_of file)) ;;;
  effect (count_uploaded (task_size file)).

(** Modelled from the spec: the Upload Scheduler ([async-parallel-queue],
    which is not part of [index.js]); its [submit]: [upload(file)], the
    function [queue.fn] returns with [ignoreResult], enqueues a task and does
    not wait for it ([index.js] never awaits the call). *)
Definition upload (file : UploadTask) (st : State) : State :=
  mkState (disk st) (stdout st) (stderr st) (puts st) (queue st ++ [file])
    (submitted st ++ [file]) (fileNum st) (totalUploadedFiles st)
    (totalUploadedSize st).

(** Modelled from the spec: [queue.size] of the absent scheduler, the
    number of tasks submitted and not yet run. *)
Definition queue_size (st : State) : Z := Z.of_nat (List.length (queue st)).

(** Modelled from the spec: the work of the absent scheduler during a
    drain.  Every task is run to its end, also after one has failed (no
    preemptive abort of in-flight work), and the error of the first task that
    permanently failed is what the drain throws.  The tasks are run one after
    the other in the order of submission, one of the interleavings the
    scheduler allows. *)
Fixpoint run_tasks (tasks : list UploadTask) (failure : option Thrown)
  : M State unit :=
  fun st =>
    match tasks with
    | [] => (match failure with None => Ret tt | Some e => Throw e end, st)
    | t :: rest =>
        match upload_task t st with
        | (Ret _, st1) => run_tasks rest failure st1
        | (Throw e, st1) =>
            run_tasks rest
              (match failure with None => Some e | Some _ => failure end) st1
        | (Exit c, st1) => (Exit c, st1)
        end
    end.

(** Modelled from the spec: [drain] ([queue.waitIdle]) of the absent
    scheduler, which suspends the caller until every submitted task has
    completed or permanently failed; a permanently failed task's error
    propagates out of it. *)
Definition waitIdle : M State unit :=
  fun st => run_tasks (queue st) None (set_queue [] st).

(** Lines 169-171 *)
Definition cannot_read (msg : string) : M State JSON :=
  fun st =>
    (Exit 1,
     logError msg
       (logError ("Can't read metadata file (" ++ metadataFilePath ++ ")") st)).

(** Lines 154-173: the metadata object after the [try]; [process.exit(1)]
    on a sidecar that cannot be read, is not JSON or has no truthy
    [uploadStartTime] (a property read on [null] throws a [TypeError], which
    the [catch] treats as any error without the code [ENOENT]). *)
Definition load : M State JSON :=
  fun st =>
    match sidecar (disk st) with
    | ReadFails e =>
        match code e with
        | Some c =>
            if String.eqb c "ENOENT" then (Ret (JObj []), st)
            else cannot_read (message e) st
        | None => cannot_read (message e) st
        end
    | Unparsable msg => cannot_read msg st
    | Parsed JNull => cannot_read (message (TypeError_null "uploadStartTime")) st
    | Parsed j =>
        if truthy (get_prop j "uploadStartTime") then (Ret j, st)
        else
          (Exit 1,
           logError ("invalid metadata file (" ++ metadataFilePath ++ ")") st)
    end.

(** line 174: [new Date(metadata.uploadStartTime || 0).getTime()] *)
Definition lastUploadTimeMs (metadata : JSON) : option Z :=
  let v := get_prop metadata "uploadStartTime" in
  new_Date_getTime rt
    (match v with
     | Some x => if truthy v then x else JNum 0
     | None => JNum 0
     end).

(** The body of the [for await] loop (lines 198-214) on the files [walk]
    yields; the result is [totalFiles], [totalSize] and the state. *)
Fixpoint scan_loop (files : list Stats) (watermark : option Z)
    (totalFiles totalSize i : Z) (st : State) : Z * Z * State :=
  match files with
  | [] => (totalFiles, totalSize, st)
  | file :: rest =>
      if String.eqb (path file) metadataFilePath
      then scan_loop rest watermark totalFiles totalSize i st
      else
        let st1 :=
          if shouldUpload (mtimeMs file) watermark
          then upload (task_of_file file) st else st in
        let st2 :=
          if (i + 1) mod 10000 =? 0 then console_log (LDone (i + 1)) st1
          else st1 in
        scan_loop rest watermark (totalFiles + 1) (totalSize + size file)
          (i + 1) st2
  end.

(** Lines 197-214: the loop, then the error [walk] throws, if any. *)
Definition scan (watermark : option Z) : M State (Z * Z) :=
  fun st =>
    let (files, thrown) := walk (source cfg) (disk st) in
    let '(totalFiles, totalSize, st1) := scan_loop files watermark 0 0 0 st in
    match thrown with
    | Some e => (Throw e, st1)
    | None => (Ret (totalFiles, totalSize), st1)
    end.

(** Lines 216-224 *)
Definition drain : M State unit :=
  fun st =>
    let filesUploaded := 1 <=? queue_size st in
    let st1 := if filesUploaded then console_log LWaiting st else st in
    match waitIdle st1 with
    | (Ret _, st2) =>
        (Ret tt, if filesUploaded then console_log LAllUploaded st2 else st2)
    | other => other
    end.

(** Lines 227-232 *)
Definition next_metadata (metadata : JSON) (uploadStartTime uploadEndTime : Z)
  : JSON :=
  JObj [("uploadStartTime", JDate uploadStartTime);
        ("uploadEndTime", JDate uploadEndTime);
        ("lastMetaData", delete_prop metadata "lastMetaData")].

Definition sidecar_task (bytes : Z) : UploadTask :=
  mkTask metadataFilePath bytes None.

(** Lines 234-238: the sidecar is written unless [--print] is given. *)
Definition persist (metadata' : JSON) (bytes now : Z) (st : State) : State :=
  if onlyPrint cfg then st
  else set_disk (writeFile_sidecar metadata' bytes now (disk st)) st.

(** Lines 248-254 *)
Definition report (uploadStartTime uploadEndTime totalFiles totalSize : Z)
    (st : State) : State :=
  console_log (LDoneIn (uploadEndTime - uploadStartTime))
    (console_log
       (LSummary uploadedLabel (totalUploadedFiles st) totalFiles
          (totalUploadedSize st) totalSize)
       st).

Definition sidecar_bytes (metadata' : JSON) : Z :=
  Z.of_nat (String.length (JSON_stringify rt metadata')).

(** Lines 226-254 *)
Definition commit (metadata : JSON) (uploadStartTime uploadEndTime : Z)
    (totals : Z * Z) : M State unit :=
  let metadata' := next_metadata metadata uploadStartTime uploadEndTime in
  let bytes := sidecar_bytes metadata' in
  effect (persist metadata' bytes uploadEndTime) ;;;
  effect (upload (sidecar_task bytes)) ;;;
  waitIdle ;;;
  effect (report uploadStartTime uploadEndTime (fst totals + 1)
            (snd totals + bytes)).

(** [main] (lines 148-255); [uploadStartTime] and [uploadEndTime] are the
    readings of [new Date()] at lines 175 and 226. *)
Definition main (uploadStartTime uploadEndTime : Z) : M State unit :=
  metadata <- load ;;
  totals <- scan (lastUploadTimeMs metadata) ;;
  drain ;;;
  commit metadata uploadStartTime uploadEndTime totals.

(** Lines 257-262: the exit code of the process and its final state. *)
Definition run (uploadStartTime uploadEndTime : Z) (st : State) : Z * State :=
  match main uploadStartTime uploadEndTime st with
  | (Ret _, st1) => (0, st1)
  | (Throw e, st1) => (1, logError_thrown e st1)
  | (Exit c, st1) => (c, st1)
  end.

(** The watermark a run that starts on disk [d] works with, if it gets
    past the load. *)
Definition watermark_of (d : Disk) : option (option Z) :=
  match load (start d) with
  | (Ret metadata, _) => Some (lastUploadTimeMs metadata)
  | _ => None
  end.

(** The files the scan of a run on disk [d] meets. *)
Definition walked (d : Disk) : list Stats := fst (walk (source cfg) d).

(** A file the scan submits: not the sidecar, and modified at or after
    the watermark. *)
Definition eligible (watermark : option Z) (f : Stats) : bool :=
  negb (String.eqb (path f) metadataFilePath)
  && shouldUpload (mtimeMs f) watermark.
End Program.

(** ** Observations on runs *)

Definition Stats_eq_dec (f g : Stats) : {f = g} + {f <> g}.
Proof.
  decide equality; try apply Z.eq_dec; apply string_dec.
Defined.

Definition UploadTask_eq_dec (t u : UploadTask) : {t = u} + {t <> u}.
Proof.
  decide equality; try apply Z.eq_dec; try apply string_dec.
  decide equality; apply Z.eq_dec.
Defined.

(** The number of earlier runs whose metadata is nested, one inside the
    other, under the [lastMetaData] key of [j]. *)
Fixpoint history_depth (j : JSON) : nat :=
  match j with
  | JObj fs =>
      (fix first (l : list (string * JSON)) : nat :=
         match l with
         | [] => O
         | (k, v) :: l' =>
             if String.eqb "lastMetaData" k then S (history_depth v)
             else first l'
         end) fs
  | _ => O
  end.

(** The run-start instants recorded along that chain, newest first. *)
Fixpoint history_starts (j : JSON) : list (option JSON) :=
  match j with
  | JObj fs =>
      (lookup "uploadStartTime" fs ::
       (fix first (l : list (string * JSON)) : list (option JSON) :=
          match l with
          | [] => []
          | (k, v) :: l' =>
              if String.eqb "lastMetaData" k then history_starts v
              else first l'
          end) fs)%list
  | _ => []
  end.

(** The per-file lines (line 191) among the lines printed. *)
Definition is_file_line (l : OutLine) : bool :=
  match l with
  | LFile _ _ _ _ => true
  | _ => false
  end.

Definition file_lines (out : list OutLine) : list OutLine :=
  filter is_file_line out.

(** Every per-file line in [out] carries the label of the mode. *)
Definition labelled (cfg : Config) (out : list OutLine) : Prop :=
  Forall (fun l => match l with
                   | LFile _ label _ _ => label = uploadedLabel cfg
                   | _ => True
                   end) out.

(** An asynchronous step that keeps the per-file lines labelled. *)
Definition keeps_labels {A} (cfg : Config) (m : M State A) : Prop :=
  forall st, labelled cfg (stdout st) -> labelled cfg (stdout (snd (m st))).

(** What the attempts of one upload leave behind: error lines and calls to
    the object store. *)
Definition emit (errs : list string) (calls : list (string * string))
    (st : State) : State :=
  mkState (disk st) (stdout st) (stderr st ++ errs) (puts st ++ calls)
    (queue st) (submitted st) (fileNum st) (totalUploadedFiles st)
    (totalUploadedSize st).

(** [calls] are the calls to the object store made for [tasks]: only for
    their files, for every one of them outside print-only mode, none in
    print-only mode. *)
Definition attempts (cfg : Config) (tasks : list UploadTask)
    (calls : list (string * string)) : Prop :=
  (forall c, In c calls -> exists t, In t tasks /\ c = put_of cfg t)
  /\ (onlyPrint cfg = false -> forall t, In t tasks -> In (put_of cfg t) calls)
  /\ (onlyPrint cfg = true -> calls = []).

(** The files with a path other than [p]. *)
Definition other_than (p : string) (f : Stats) : bool :=
  negb (String.eqb (path f) p).

(** [visits dir d dir' x]: the walk of entry [d] of directory [dir] meets
    entry [x] in directory [dir']. *)
Inductive visits : string -> Dirent -> string -> Dirent -> Prop :=
| visits_here dir d : visits dir d dir d
| visits_down dir n ents d' dir' x :
    In d' ents ->
    visits (path_join dir n) d' dir' x ->
    visits dir (DDir n None ents) dir' x.

(** The disk a run leaves behind. *)
Definition disk_after (rt : Runtime) (cfg : Config) (t0 t1 : Z) (d : Disk)
  : Disk :=
  disk (snd (run rt cfg t0 t1 (start d))).

(** ** Sample inputs *)


(** An object store that accepts every upload, and one that rejects the
    uploads of [local]. *)
Definition store_ok
  : list (string * string) -> string -> string -> option JSError :=
  fun _ _ _ => None.

Definition store_rejecting (local : string)
  : list (string * string) -> string -> string -> option JSError :=
  fun _ l _ =>
    if String.eqb l local then Some (mkError None "upload failed") else None.

(** A runtime on the store [store], where no text but an ISO instant is a
    date and every serialised value is two characters long. *)
Definition runtime_with
    (store : list (string * string) -> string -> string -> option JSError)
  : Runtime :=
  mkRuntime store (fun _ => None) (fun _ => "{}").

Definition rt_ok : Runtime := runtime_with store_ok.

(** An object store that rejects every upload of [/data/a.txt]. *)
Definition rt_rejecting_a : Runtime :=
  runtime_with (store_rejecting "/data/a.txt").

Definition cfg_backup : Config := mkConfig "/data" "/backups/" false false.
Definition cfg_print : Config := mkConfig "/data" "/backups/" true false.

(** The sidecar as it is before the first run. *)
Definition absent : ReadResult :=
  ReadFails (mkError (Some "ENOENT") "ENOENT: no such file or directory").

(** An empty source directory, never backed up. *)
Definition disk_empty : Disk := mkDisk absent None [].

(** One file modified at instant 100, never backed up. *)
Definition disk_one_file : Disk := mkDisk absent None [DFile "a.txt" 10 100].

(** Two files, one modified before instant 1000 and one after. *)
Definition disk_two_files : Disk :=
  mkDisk absent None [DFile "a.txt" 10 100; DFile "b.txt" 20 1500].

(** A first run on a file dated before 1970. *)
Definition disk_pre_epoch : Disk :=
  mkDisk absent None [DFile "old.txt" 1 (-1)].

(** A sidecar that is not JSON. *)
Definition disk_garbled : Disk :=
  mkDisk (Unparsable "Unexpected token } in JSON at position 1") None
    [DFile "a.txt" 10 100].

(** A sidecar written by a run that started at instant 1000. *)
Definition disk_after_1000 : Disk :=
  mkDisk (Parsed (JObj [("uploadStartTime", JDate 1000);
                        ("uploadEndTime", JDate 1001);
                        ("lastMetaData", JObj [])]))
    None
    [DFile "a.txt" 10 100; DFile ".backup-folder.json" 2 1001].

(** A source directory with a file named like the sidecar in a
    subdirectory. *)
Definition disk_nested_sidecar : Disk :=
  mkDisk absent None
    [DFile "a.txt" 10 100;
     DDir "sub" None [DFile ".backup-folder.json" 5 200; DFile "c.txt" 1 50]].

(** An empty directory after three runs. *)
Definition disk_after_three_runs : Disk :=
  disk_after rt_ok cfg_backup 30 31
    (disk_after rt_ok cfg_backup 20 21
       (disk_after rt_ok cfg_backup 10 11 disk_empty)).

(** ** Further observations *)



(** The bytes of the files [l]. *)
Definition total_size (l : list Stats) : Z :=
  fold_right (fun f acc => size f + acc) 0 l.

(** The numbers the per-file lines of [out] start with. *)
Fixpoint line_numbers (out : list OutLine) : list Z :=
  match out with
  | [] => []
  | LFile num _ _ _ :: rest => num :: line_numbers rest
  | _ :: rest => line_numbers rest
  end.

(** [1; 2; ...; n] *)
Definition count_to (n : nat) : list Z := map Z.of_nat (seq 1 n).



(** A sidecar that exists and cannot be read. *)
Definition disk_denied : Disk :=
  mkDisk (ReadFails (mkError (Some "EACCES") "EACCES: permission denied")) None
    [DFile "a.txt" 10 100].

(** A sidecar whose [uploadStartTime] is [0]. *)
Definition disk_zero_start : Disk :=
  mkDisk (Parsed (JObj [("uploadStartTime", JNum 0)])) None
    [DFile "a.txt" 10 100].

(** The bytes of the tasks [l]. *)
Definition tasks_size (l : list UploadTask) : Z :=
  fold_right (fun t acc => task_size t + acc) 0 l.

(** ** The command line (lines 117-146) *)

(** [s.startsWith(p)] *)
Definition startsWith (p s : string) : bool := String.prefix p s.

(** [s.substring(n)] *)
Definition substring_from (n : nat) (s : string) : string :=
  String.substring n (String.length s - n) s.

(** [path.isAbsolute(p)] on POSIX. *)
Definition isAbsolute (p : string) : bool := startsWith "/" p.

(** The character class [[a-zA-Z0-9_-]]. *)
Definition is_bucket_char (c : ascii) : bool :=
  let n := nat_of_ascii c in
  ((97 <=? n) && (n <=? 122) || (65 <=? n) && (n <=? 90)
   || (48 <=? n) && (n <=? 57) || (n =? 95) || (n =? 45))%nat.

(** [(?:\/|$)] at the start of [s]. *)
Definition slash_or_end (s : string) : bool :=
  match s with
  | EmptyString => true
  | String c _ => Ascii.eqb c "/"
  end.

(** [([a-zA-Z0-9_-]+)(?:\/|$)] at the start of [s], as a backtracking
    matcher runs it: the group takes every character it can and gives them
    back one at a time until what follows matches.  The result is the
    group. *)
Fixpoint bucket_group (s : string) : option string :=
  match s with
  | EmptyString => None
  | String c rest =>
      if is_bucket_char c then
        match bucket_group rest with
        | Some b => Some (String c b)
        | None => if slash_or_end rest then Some (String c EmptyString) else None
        end
      else None
  end.

(** [destination.match(/^gs:\/\/([a-zA-Z0-9_-]+)(?:\/|$)/)?.[1]] *)
Definition bucket_of (destination : string) : option string :=
  if startsWith "gs://" destination
  then bucket_group (substring_from 5 destination)
  else None.

(** How the top level of the script ends before [main] is called:
    [logError(msg); process.exit(1)], an uncaught exception, or the
    constants [main] works with. *)
Inductive Startup :=
| Refused (msg : string)
| Crashed (e : JSError)
| Ready (cfg : Config) (bucket : string).

(** The [TypeError] of line 145, an assignment to a [const]. *)
Definition const_assignment : JSError :=
  mkError None "Assignment to constant variable.".

(** Lines 117-146, from the two arguments and the two options the parser
    returns; [join_cwd s] is [path.join(process.cwd(), s)]. *)
Definition startup (join_cwd : string -> string) (source destination : string)
    (onlyPrint quiet : bool) : Startup :=
  if startsWith "gs://" source
  then Refused "source can't be a google cloud bucket"
  else if negb (startsWith "gs://" destination)
  then Refused "destination must be a google cloud folder"
  else
    let source := if isAbsolute source then source else join_cwd source in
    match bucket_of destination with
    | None | Some EmptyString => Refused "invalid destination"
    | Some bucket =>
        let destinationDir :=
          match substring_from (String.length bucket + 5) destination with
          | EmptyString => "/"
          | dir => dir
          end in
        if negb (startsWith "/" destinationDir)
        then Crashed const_assignment
        else Ready (mkConfig source destinationDir onlyPrint quiet) bucket
    end.

(** Every character of [s] satisfies [p]. *)
Fixpoint all_chars (p : ascii -> bool) (s : string) : bool :=
  match s with
  | EmptyString => true
  | String c rest => p c && all_chars p rest
  end.

(** ** humanFileSize (lines 32-47) *)

(** What [humanFileSize] returns: [bytes + ' B'], or the text of
    [tenths / 10] with one decimal ([toFixed(1)]), a space and
    [units[unit]]. *)
Inductive HumanSize :=
| InBytes (bytes : Z)
| InUnit (tenths : Z) (unit : nat).

(** The integer nearest to [num / den], the larger one of two: [Math.round]
    and [toFixed(0)] on [num / den], for [0 <= num] and [0 < den]. *)
Definition round_half_up (num den : Z) : Z := (2 * num + den) / (2 * den).

(** The [do ... while] loop after [bytes /= 1024; ++u]: [bytes] is the
    argument divided by [divisor], [abs10] is ten times the absolute value
    of the argument and [left] is [units.length - 1 - u]. *)
Fixpoint humanFileSize_loop (left : nat) (abs10 divisor : Z) (u : nat)
  : Z * nat :=
  if 10240 <=? round_half_up abs10 divisor then
    match left with
    | S left' => humanFileSize_loop left' abs10 (divisor * 1024) (S u)
    | O => (divisor, u)
    end
  else (divisor, u).

(** [humanFileSize(bytes)], with [dp = 1] as at every call, on an integer.
    For [Z.abs bytes * 10 < 2 ^ 53] the doubles of the source are exact: the
    divisions by 1024 and the product by [r = 10] lose nothing,
    [Math.round(x * 10) / 10 >= 1024] holds exactly when
    [Math.round(x * 10) >= 10240], and [toFixed(1)] rounds the exact value,
    away from zero at a tie. *)
Definition humanFileSize (bytes : Z) : HumanSize :=
  if Z.abs bytes <? 1024 then InBytes bytes
  else
    let (divisor, u) := humanFileSize_loop 7 (Z.abs bytes * 10) 1024 0 in
    InUnit (Z.sgn bytes * round_half_up (Z.abs bytes * 10) divisor) u.

(** * Properties *)

(** ** withRetries *)

Section RetryFacts.
Context {A : Type}.
Variable script : nat -> JSError + A.


End RetryFacts.

(** ** The upload closure and the scheduler *)

Section RunFacts.
Variable rt : Runtime.
Variable cfg : Config.

Lemma emit_nil st : emit [] [] st = st.
Proof. destruct st; unfold emit; simpl. rewrite !app_nil_r. reflexivity. Qed.

Lemma emit_emit e1 c1 e2 c2 st :
  emit e2 c2 (emit e1 c1 st) = emit (e1 ++ e2) (c1 ++ c2) st.
Proof. unfold emit; simpl. rewrite <- !app_assoc. reflexivity. Qed.

Lemma record_put_emit c st : record_put c st = emit [] [c] st.
Proof. destruct st; unfold emit, record_put; simpl. rewrite app_nil_r. reflexivity. Qed.

Lemma logError_emit m st : logError m st = emit [m] [] st.
Proof. destruct st; unfold emit, logError; simpl. rewrite app_nil_r. reflexivity. Qed.

Lemma withRetries_loop_step {St A} (log : string -> St -> St) (fn : M St A)
    (r : nat) (last : Thrown) (s : St) :
  withRetries_loop log fn (S r) last s
  = match fn s with
    | (Ret a, s1) => (Ret a, s1)
    | (Throw TNull, s1) => (Throw (TError (TypeError_null "message")), s1)
    | (Throw (TError e), s1) =>
        withRetries_loop log fn r (TError e) (log (message e) s1)
    | (Exit c, s1) => (Exit c, s1)
    end.
Proof. reflexivity. Qed.

(** The retry loop around one upload: between one and [n] calls to the
    object store, all for the same file, and nothing else but error
    lines. *)
Lemma storage_retry_spec (l dst : string) :
  forall (n : nat) (last : Thrown) (st : State),
  exists errs k out,
    withRetries_loop logError (storage_upload rt l dst) n last st
    = (out, emit errs (repeat (l, dst) k) st)
    /\ (k <= n)%nat /\ (n <> O -> k <> O)
    /\ (out = Ret tt \/ exists e, out = Throw e).
Proof.
  induction n as [|n IH]; intros last st.
  - exists [], O, (Throw last). simpl. rewrite emit_nil.
    repeat split; try lia; eauto.
  - rewrite withRetries_loop_step. unfold storage_upload at 1.
    destruct (bucket_upload rt (puts st) l dst) as [e|].
    + destruct (IH (TError e) (logError (message e) (record_put (l, dst) st)))
        as (errs & k & out & Heq & Hk & _ & Hout).
      exists (message e :: errs), (S k), out.
      rewrite Heq, record_put_emit, logError_emit, !emit_emit. simpl.
      repeat split; try lia; auto.
    + exists [], 1%nat, (Ret tt). rewrite record_put_emit.
      repeat split; try lia; auto.
Qed.

(** One run of the closure: it resolves, having printed and counted the
    file, or (outside print-only mode) rejects after its attempts. *)
Lemma upload_task_spec (t : UploadTask) (st : State) :
  exists errs k,
    (onlyPrint cfg = true -> errs = [] /\ k = O) /\
    (onlyPrint cfg = false -> k <> O) /\
    (upload_task rt cfg t st
     = (Ret tt,
        count_uploaded (task_size t)
          (print_file_line cfg t (destination_of cfg t)
             (emit errs (repeat (put_of cfg t) k) st)))
     \/ (onlyPrint cfg = false /\
         exists e, upload_task rt cfg t st
                   = (Throw e, emit errs (repeat (put_of cfg t) k) st))).
Proof.
  unfold upload_task, bind, effect, ret.
  destruct (onlyPrint cfg) eqn:Hp.
  - exists [], O. rewrite emit_nil. repeat split; try discriminate. now left.
  - unfold withRetries.
    destruct (storage_retry_spec (fst (put_of cfg t)) (snd (put_of cfg t))
                default_retries TNull st)
      as (errs & k & out & Heq & _ & Hk & Hout).
    exists errs, k. rewrite Heq. rewrite <- surjective_pairing.
    split; [discriminate|]. split; [intros _; apply Hk; discriminate|].
    destruct Hout as [-> | [e ->]]; [now left | right; eauto].
Qed.

Ltac run_tasks_step t st errs k Hp Hnp Heq e :=
  cbn [run_tasks];
  destruct (upload_task_spec t st) as (errs & k & Hp & Hnp & [Heq | (_ & e & Heq)]);
  rewrite Heq.

Ltac fields :=
  unfold count_uploaded, print_file_line, emit, console_log, incr_fileNum;
  destruct (quiet cfg); cbn.

(** The tasks touch neither the disk nor the scheduler's lists. *)
Lemma run_tasks_frame (tasks : list UploadTask) :
  forall (failure : option Thrown) (st : State),
    let st' := snd (run_tasks rt cfg tasks failure st) in
    disk st' = disk st /\ queue st' = queue st /\ submitted st' = submitted st.
Proof.
  induction tasks as [|t rest IH]; intros failure st; [cbn; auto|].
  run_tasks_step t st errs k Hp Hnp Heq e.
  - match goal with |- context [run_tasks _ _ _ ?f ?s] =>
      destruct (IH f s) as (H1 & H2 & H3) end.
    cbn zeta. rewrite H1, H2, H3. fields; auto.
  - match goal with |- context [run_tasks _ _ _ ?f ?s] =>
      destruct (IH f s) as (H1 & H2 & H3) end.
    cbn zeta. rewrite H1, H2, H3. cbn; auto.
Qed.

(** The calls made to the object store while the tasks run: only for the
    tasks' files, for every one of them outside print-only mode, and none
    in print-only mode. *)
Lemma run_tasks_puts (tasks : list UploadTask) :
  forall (failure : option Thrown) (st : State),
  exists calls,
    puts (snd (run_tasks rt cfg tasks failure st)) = (puts st ++ calls)%list
    /\ (forall c, In c calls -> exists t, In t tasks /\ c = put_of cfg t)
    /\ (onlyPrint cfg = false -> forall t, In t tasks -> In (put_of cfg t) calls)
    /\ (onlyPrint cfg = true -> calls = []).
Proof.
  induction tasks as [|t rest IH]; intros failure st.
  - exists []. cbn. rewrite app_nil_r. repeat split; auto; contradiction.
  - assert (Hrep : forall k c, In c (repeat (put_of cfg t) k) -> c = put_of cfg t)
      by (intros k c Hc; eapply repeat_spec; eauto).
    assert (Hin : forall k, k <> O -> In (put_of cfg t) (repeat (put_of cfg t) k))
      by (intros [|k] Hk; [congruence | now left]).
    run_tasks_step t st errs k Hp Hnp Heq e;
      match goal with |- context [run_tasks _ _ _ ?f ?s] =>
        destruct (IH f s) as (calls & H1 & H2 & H3 & H4) end;
      exists (repeat (put_of cfg t) k ++ calls)%list;
      (split; [rewrite H1; fields; now rewrite app_assoc|]);
      (split; [intros c [Hc|Hc]%in_app_or;
               [exists t; split; [now left | eauto]
               |destruct (H2 c Hc) as (u & Hu & ->); exists u;
                split; [now right | auto]]|]);
      (split; [intros Hnp' u [<-|Hu]; apply in_or_app; [left; auto | right; auto]
              |intros Hp'; destruct (Hp Hp') as [_ ->]; rewrite (H4 Hp'); reflexivity]).
Qed.

(** The outcome of running the tasks: every one completed and was counted,
    or an error is thrown after every one has been run, and then at least
    one was not counted. *)
Lemma run_tasks_outcome (tasks : list UploadTask) :
  forall (failure : option Thrown) (st : State),
    let r := run_tasks rt cfg tasks failure st in
    let n := Z.of_nat (List.length tasks) in
    (fst r = Ret tt /\ failure = None /\
     totalUploadedFiles (snd r) = totalUploadedFiles st + n)
    \/
    (exists e, fst r = Throw e /\
       totalUploadedFiles st <= totalUploadedFiles (snd r)
       <= totalUploadedFiles st + n /\
       (failure = None ->
        totalUploadedFiles (snd r) < totalUploadedFiles st + n /\
        onlyPrint cfg = false)).
Proof.
  induction tasks as [|t rest IH]; intros failure st.
  - cbn. destruct failure as [e|]; [right | left]; [|auto with zarith].
    exists e. repeat split; try lia; discriminate.
  - cbn zeta.
    destruct (upload_task_spec t st)
      as (errs & k & Hp & Hnp & [Heq | (Hnp' & e & Heq)]);
      cbn [run_tasks]; rewrite Heq.
    + match goal with |- context [run_tasks _ _ _ ?f ?s] =>
        destruct (IH f s) as [(H1 & H2 & H3) | (e & H1 & H2 & H3)];
        assert (Hs : totalUploadedFiles s = totalUploadedFiles st + 1)
          by (fields; reflexivity) end.
      * left. repeat split; auto. rewrite H3, Hs.
        change (List.length (t :: rest)) with (S (List.length rest)). lia.
      * right. exists e. split; [auto|].
        change (List.length (t :: rest)) with (S (List.length rest)).
        split; [lia|]. intros Hf. destruct (H3 Hf). split; [lia | auto].
    + match goal with |- context [run_tasks _ _ _ ?f ?s] =>
        destruct (IH f s) as [(H1 & H2 & H3) | (e' & H1 & H2 & H3)];
        assert (Hs : totalUploadedFiles s = totalUploadedFiles st)
          by reflexivity end.
      * destruct failure; discriminate.
      * right. exists e'. split; [auto|].
        change (List.length (t :: rest)) with (S (List.length rest)).
        split; [lia|]. intros _. split; [lia | auto].
Qed.

(** One per-file line for each task counted, none in quiet mode. *)
Lemma run_tasks_lines (tasks : list UploadTask) :
  forall (failure : option Thrown) (st : State),
    let st' := snd (run_tasks rt cfg tasks failure st) in
    Z.of_nat (List.length (file_lines (stdout st')))
    = Z.of_nat (List.length (file_lines (stdout st)))
      + (if quiet cfg then 0
         else totalUploadedFiles st' - totalUploadedFiles st).
Proof.
  induction tasks as [|t rest IH]; intros failure st.
  - cbn. destruct (quiet cfg); lia.
  - run_tasks_step t st errs k Hp Hnp Heq e;
      match goal with |- context [run_tasks _ _ _ ?f ?s] =>
        specialize (IH f s) end;
      cbn zeta in *; rewrite IH; clear IH.
    + unfold count_uploaded, print_file_line, emit, console_log, incr_fileNum,
        file_lines.
      destruct (quiet cfg); cbn; [lia|].
      rewrite filter_app, length_app. cbn. lia.
    + unfold emit, file_lines. cbn. destruct (quiet cfg); lia.
Qed.
(** A file the object store never accepts: its task rejects, and with it
    the drain of any queue that holds the task. *)
Lemma retry_always_rejected (l dst : string) :
  (forall earlier, bucket_upload rt earlier l dst <> None) ->
  forall (n : nat) (last : Thrown) (st : State),
  exists e,
    fst (withRetries_loop logError (storage_upload rt l dst) n last st) = Throw e.
Proof.
  intros Hrej. induction n as [|n IH]; intros last st.
  - exists last. reflexivity.
  - rewrite withRetries_loop_step. unfold storage_upload at 1.
    destruct (bucket_upload rt (puts st) l dst) as [e|] eqn:Hb.
    + apply IH.
    + destruct (Hrej _ Hb).
Qed.

Lemma upload_task_rejected (t : UploadTask) (st : State) :
  onlyPrint cfg = false ->
  (forall earlier dst, bucket_upload rt earlier (task_path t) dst <> None) ->
  exists e, fst (upload_task rt cfg t st) = Throw e.
Proof.
  intros Hp Hrej. unfold upload_task, bind, withRetries. rewrite Hp.
  destruct (retry_always_rejected (fst (put_of cfg t)) (snd (put_of cfg t))
              (fun earlier => Hrej earlier _) default_retries TNull st)
    as [e He].
  destruct (withRetries_loop _ _ _ _ _) as [out st1]. cbn [fst] in He.
  subst out. exists e. reflexivity.
Qed.

Lemma run_tasks_failed (tasks : list UploadTask) (failure : option Thrown)
    (st : State) :
  failure <> None ->
  exists e, fst (run_tasks rt cfg tasks failure st) = Throw e.
Proof.
  intros Hf.
  destruct (run_tasks_outcome tasks failure st)
    as [(_ & H & _) | (e & H & _)]; [contradiction | eauto].
Qed.

Lemma run_tasks_rejected (tasks : list UploadTask) (t : UploadTask) :
  onlyPrint cfg = false ->
  In t tasks ->
  (forall earlier dst, bucket_upload rt earlier (task_path t) dst <> None) ->
  forall (failure : option Thrown) (st : State),
  exists e, fst (run_tasks rt cfg tasks failure st) = Throw e.
Proof.
  intros Hp Hin Hrej.
  induction tasks as [|u rest IH]; intros failure st; [contradiction|].
  cbn [run_tasks].
  destruct Hin as [-> | Hin].
  - destruct (upload_task_rejected t st Hp Hrej) as [e He].
    destruct (upload_task rt cfg t st) as [out st1]. cbn [fst] in He.
    subst out. apply run_tasks_failed. destruct failure; discriminate.
  - destruct (upload_task_spec u st)
      as (errs & k & _ & _ & [Heq | (_ & e & Heq)]); rewrite Heq.
    + apply IH. exact Hin.
    + apply run_tasks_failed. destruct failure; discriminate.
Qed.
End RunFacts.



(** ** The phases of a run *)

Section Phases.
Variable rt : Runtime.
Variable cfg : Config.

(** The scan submits the eligible files, in the order of the walk, and
    does nothing else but print progress lines. *)
Lemma scan_loop_spec (wm : option Z) (files : list Stats) :
  forall (tf ts i : Z) (st : State),
    let st' := snd (scan_loop cfg files wm tf ts i st) in
    let tasks := map task_of_file (filter (eligible cfg wm) files) in
    disk st' = disk st /\ puts st' = puts st /\
    totalUploadedFiles st' = totalUploadedFiles st /\
    queue st' = (queue st ++ tasks)%list /\
    submitted st' = (submitted st ++ tasks)%list /\
    file_lines (stdout st') = file_lines (stdout st).
Proof.
  induction files as [|f rest IH]; intros tf ts i st.
  - cbn. rewrite !app_nil_r. auto 7.
  - cbn [scan_loop filter].
    assert (He : eligible cfg wm f
                 = negb (String.eqb (path f) (metadataFilePath cfg))
                   && shouldUpload (mtimeMs f) wm) by reflexivity.
    rewrite He. clear He.
    destruct (String.eqb (path f) (metadataFilePath cfg)); cbn [negb andb].
    + apply IH.
    + match goal with |- context [scan_loop _ _ _ ?a ?b ?c ?s] =>
        destruct (IH a b c s) as (H1 & H2 & H3 & H4 & H5 & H6) end.
      cbn zeta. rewrite H1, H2, H3, H4, H5, H6. clear.
      unfold file_lines.
      destruct (shouldUpload (mtimeMs f) wm);
        destruct ((i + 1) mod 10000 =? 0); cbn;
        rewrite <- ?app_assoc, ?filter_app; cbn; rewrite ?app_nil_r; auto 7.
Qed.

Lemma scan_spec (wm : option Z) (st : State) :
  let r := scan cfg wm st in
  let st' := snd r in
  let tasks := map task_of_file (filter (eligible cfg wm) (walked cfg (disk st))) in
  (disk st' = disk st /\ puts st' = puts st /\
   totalUploadedFiles st' = totalUploadedFiles st /\
   queue st' = (queue st ++ tasks)%list /\
   submitted st' = (submitted st ++ tasks)%list /\
   file_lines (stdout st') = file_lines (stdout st))
  /\ match snd (walk (source cfg) (disk st)) with
     | Some e => fst r = Throw e
     | None => exists totals, fst r = Ret totals
     end.
Proof.
  unfold scan, walked.
  destruct (walk (source cfg) (disk st)) as [files thrown]. cbn [fst snd].
  pose proof (scan_loop_spec wm files 0 0 0 st) as H.
  destruct (scan_loop cfg files wm 0 0 0 st) as [[tf ts] st1].
  cbn [fst snd] in *.
  destruct thrown; cbn [fst snd]; (split; [exact H | eauto]).
Qed.

(** The load returns the metadata and leaves the state as it is, or exits
    with code 1 having printed error lines only. *)
Lemma load_spec (st : State) :
  (exists m, load cfg st = (Ret m, st) /\
     ((exists e, sidecar (disk st) = ReadFails e /\ code e = Some "ENOENT" /\
                 m = JObj [])
      \/ (sidecar (disk st) = Parsed m /\
          truthy (get_prop m "uploadStartTime") = true)))
  \/ (exists errs, load cfg st = (Exit 1, emit errs [] st)).
Proof.
  assert (Hcr : forall msg, exists errs,
             cannot_read cfg msg st = (Exit 1, emit errs [] st)).
  { intros msg. unfold cannot_read. eexists.
    rewrite !logError_emit, emit_emit. reflexivity. }
  unfold load.
  destruct (sidecar (disk st)) as [e | msg | j] eqn:Hs.
  - destruct (code e) as [c|] eqn:Hc; [|right; apply Hcr].
    destruct (String.eqb c "ENOENT") eqn:Hcode; [|right; apply Hcr].
    apply String.eqb_eq in Hcode. subst c.
    left. exists (JObj []). split; [reflexivity|]. left. eauto.
  - right. apply Hcr.
  - destruct (truthy (get_prop j "uploadStartTime")) eqn:Ht.
    + left. exists j. destruct j; cbn in Ht; try discriminate.
      split; [reflexivity | right; auto].
    + right. destruct j; try apply Hcr;
        eexists; rewrite logError_emit; reflexivity.
Qed.

(** The drain runs every submitted task and empties the queue. *)
Lemma waitIdle_spec (st : State) :
  let r := waitIdle rt cfg st in
  let st' := snd r in
  let tasks := queue st in
  let n := Z.of_nat (List.length tasks) in
  disk st' = disk st /\ queue st' = [] /\ submitted st' = submitted st
  /\ (exists calls,
        puts st' = (puts st ++ calls)%list
        /\ (forall c, In c calls -> exists t, In t tasks /\ c = put_of cfg t)
        /\ (onlyPrint cfg = false ->
            forall t, In t tasks -> In (put_of cfg t) calls)
        /\ (onlyPrint cfg = true -> calls = []))
  /\ Z.of_nat (List.length (file_lines (stdout st')))
     = Z.of_nat (List.length (file_lines (stdout st)))
       + (if quiet cfg then 0
          else totalUploadedFiles st' - totalUploadedFiles st)
  /\ ((fst r = Ret tt /\ totalUploadedFiles st' = totalUploadedFiles st + n)
      \/ (exists e, fst r = Throw e /\ onlyPrint cfg = false /\
            totalUploadedFiles st <= totalUploadedFiles st'
            < totalUploadedFiles st + n)).
Proof.
  unfold waitIdle. cbn zeta.
  destruct (run_tasks_frame rt cfg (queue st) None (set_queue [] st))
    as (H1 & H2 & H3).
  destruct (run_tasks_puts rt cfg (queue st) None (set_queue [] st))
    as (calls & H4 & H5 & H6 & H7).
  pose proof (run_tasks_lines rt cfg (queue st) None (set_queue [] st)) as H8.
  pose proof (run_tasks_outcome rt cfg (queue st) None (set_queue [] st)) as H9.
  cbn zeta in *.
  cbn [set_queue disk queue submitted puts stdout totalUploadedFiles] in *.
  repeat split; auto.
  - exists calls. auto.
  - destruct H9 as [(Ha & _ & Hb) | (e & Ha & Hb & Hc)]; [left; auto|].
    right. exists e. destruct (Hc eq_refl). repeat split; auto; lia.
Qed.

(** [main], phase by phase. *)
Lemma main_cases (t0 t1 : Z) (st : State) :
  (exists errs, load cfg st = (Exit 1, emit errs [] st) /\
                main rt cfg t0 t1 st = (Exit 1, emit errs [] st))
  \/
  (exists m, load cfg st = (Ret m, st) /\
     let wm := lastUploadTimeMs rt m in
     ((exists e, fst (scan cfg wm st) = Throw e /\
                 main rt cfg t0 t1 st = (Throw e, snd (scan cfg wm st)))
      \/
      (exists totals, fst (scan cfg wm st) = Ret totals /\
         let st1 := snd (scan cfg wm st) in
         ((exists e, fst (drain rt cfg st1) = Throw e /\
                     main rt cfg t0 t1 st = (Throw e, snd (drain rt cfg st1)))
          \/
          (fst (drain rt cfg st1) = Ret tt /\
           main rt cfg t0 t1 st
           = commit rt cfg m t0 t1 totals (snd (drain rt cfg st1))))))).
Proof.
  unfold main, bind.
  destruct (load_spec st) as [(m & Hl & _) | (errs & Hl)]; rewrite Hl.
  - right. exists m. split; [reflexivity|]. cbn zeta.
    destruct (scan_spec (lastUploadTimeMs rt m) st) as (_ & Hs).
    destruct (scan cfg (lastUploadTimeMs rt m) st) as [out st1].
    cbn [fst snd] in *.
    destruct (snd (walk (source cfg) (disk st))) as [e|].
    + left. exists e. subst out. auto.
    + right. destruct Hs as [totals ->]. exists totals.
      split; [reflexivity|].
      destruct (waitIdle_spec
                  (if 1 <=? queue_size st1 then console_log LWaiting st1
                   else st1)) as (_ & _ & _ & _ & _ & Hd).
      unfold drain.
      destruct (waitIdle rt cfg _) as [out2 st2]. cbn [fst snd] in *.
      destruct Hd as [(-> & _) | (e & -> & _)].
      * right. auto.
      * left. exists e. auto.
  - left. exists errs. auto.
Qed.
End Phases.

(** ** A whole run *)

Section WholeRun.
Variable rt : Runtime.
Variable cfg : Config.

Lemma attempts_app (T1 T2 : list UploadTask) (c1 c2 : list (string * string)) :
  attempts cfg T1 c1 -> attempts cfg T2 c2 ->
  attempts cfg (T1 ++ T2) (c1 ++ c2).
Proof.
  intros (A1 & A2 & A3) (B1 & B2 & B3). repeat split.
  - intros c [Hc|Hc]%in_app_or.
    + destruct (A1 c Hc) as (t & Ht & ->). exists t. split; auto using in_or_app.
    + destruct (B1 c Hc) as (t & Ht & ->). exists t. split; auto using in_or_app.
  - intros Hp t [Ht|Ht]%in_app_or; apply in_or_app; auto.
  - intros Hp. rewrite (A3 Hp), (B3 Hp). reflexivity.
Qed.

Lemma attempts_nil : attempts cfg [] [].
Proof. repeat split; auto; intros; contradiction. Qed.

Lemma drain_spec (st : State) :
  let r := drain rt cfg st in
  let st' := snd r in
  let n := Z.of_nat (List.length (queue st)) in
  disk st' = disk st /\ queue st' = [] /\ submitted st' = submitted st
  /\ (exists calls,
        puts st' = (puts st ++ calls)%list /\ attempts cfg (queue st) calls)
  /\ Z.of_nat (List.length (file_lines (stdout st')))
     = Z.of_nat (List.length (file_lines (stdout st)))
       + (if quiet cfg then 0
          else totalUploadedFiles st' - totalUploadedFiles st)
  /\ ((fst r = Ret tt /\ totalUploadedFiles st' = totalUploadedFiles st + n)
      \/ (exists e, fst r = Throw e /\ onlyPrint cfg = false /\
            totalUploadedFiles st <= totalUploadedFiles st'
            < totalUploadedFiles st + n)).
Proof.
  unfold drain. cbn zeta.
  set (st1 := if 1 <=? queue_size st then console_log LWaiting st else st).
  assert (Hst1 : disk st1 = disk st /\ queue st1 = queue st /\
                 submitted st1 = submitted st /\ puts st1 = puts st /\
                 totalUploadedFiles st1 = totalUploadedFiles st /\
                 file_lines (stdout st1) = file_lines (stdout st)).
  { unfold st1, file_lines. destruct (1 <=? queue_size st); cbn; auto 7.
    rewrite filter_app. cbn. rewrite app_nil_r. auto 7. }
  destruct Hst1 as (E1 & E2 & E3 & E4 & E5 & E6).
  destruct (waitIdle_spec rt cfg st1)
    as (H1 & H2 & H3 & (calls & H4 & H5) & H6 & H7).
  rewrite E1, E3, E4, E5, E6 in *. rewrite E2 in H5, H7.
  destruct (waitIdle rt cfg st1) as [out st2]. cbn [fst snd] in *.
  destruct H7 as [(-> & H7) | (e & -> & H7)]; cbn [fst snd].
  - assert (Hst2 : forall st3,
              st3 = (if 1 <=? queue_size st then console_log LAllUploaded st2
                     else st2) ->
              disk st3 = disk st2 /\ queue st3 = queue st2 /\
              submitted st3 = submitted st2 /\ puts st3 = puts st2 /\
              totalUploadedFiles st3 = totalUploadedFiles st2 /\
              file_lines (stdout st3) = file_lines (stdout st2)).
    { intros st3 ->. unfold file_lines.
      destruct (1 <=? queue_size st); cbn; auto 7.
      rewrite filter_app. cbn. rewrite app_nil_r. auto 7. }
    destruct (Hst2 _ eq_refl) as (F1 & F2 & F3 & F4 & F5 & F6).
    rewrite F1, F2, F3, F4, F5, F6.
    repeat split; auto. exists calls. split; auto.
  - repeat split; auto.
    + exists calls. split; auto.
    + right. exists e. auto.
Qed.

Lemma commit_spec (m : JSON) (t0 t1 : Z) (totals : Z * Z) (st : State) :
  queue st = [] ->
  let m' := next_metadata m t0 t1 in
  let bytes := sidecar_bytes rt m' in
  let r := commit rt cfg m t0 t1 totals st in
  let st' := snd r in
  disk st' = disk (persist cfg m' bytes t1 st) /\ queue st' = []
  /\ submitted st' = (submitted st ++ [sidecar_task cfg bytes])%list
  /\ (exists calls,
        puts st' = (puts st ++ calls)%list
        /\ attempts cfg [sidecar_task cfg bytes] calls)
  /\ Z.of_nat (List.length (file_lines (stdout st')))
     = Z.of_nat (List.length (file_lines (stdout st)))
       + (if quiet cfg then 0
          else totalUploadedFiles st' - totalUploadedFiles st)
  /\ ((fst r = Ret tt /\ totalUploadedFiles st' = totalUploadedFiles st + 1)
      \/ (exists e, fst r = Throw e /\ onlyPrint cfg = false /\
            totalUploadedFiles st' = totalUploadedFiles st)).
Proof.
  intros Hq. cbn zeta. unfold commit, bind, effect.
  set (m' := next_metadata m t0 t1).
  set (bytes := sidecar_bytes rt m').
  set (st1 := upload (sidecar_task cfg bytes) (persist cfg m' bytes t1 st)).
  assert (Hst1 : disk st1 = disk (persist cfg m' bytes t1 st) /\
                 queue st1 = [sidecar_task cfg bytes] /\
                 submitted st1 = (submitted st ++ [sidecar_task cfg bytes])%list /\
                 puts st1 = puts st /\
                 totalUploadedFiles st1 = totalUploadedFiles st /\
                 stdout st1 = stdout st).
  { unfold st1, persist. destruct (onlyPrint cfg); cbn; rewrite Hq; auto 7. }
  destruct Hst1 as (E1 & E2 & E3 & E4 & E5 & E6).
  destruct (waitIdle_spec rt cfg st1)
    as (H1 & H2 & H3 & (calls & H4 & H5) & H6 & H7).
  rewrite E1, E3, E4, E5, E6 in *. rewrite E2 in H5, H7.
  destruct (waitIdle rt cfg st1) as [out st2]. cbn [fst snd] in *.
  destruct H7 as [(-> & H7) | (e & -> & Hp & H7)]; cbn [fst snd].
  - unfold report, file_lines in *. cbn.
    rewrite <- !app_assoc, filter_app. cbn. rewrite app_nil_r.
    repeat split; auto. exists calls. split; auto.
  - repeat split; auto.
    + exists calls. split; auto.
    + right. exists e. repeat split; auto. cbn in H7. lia.
Qed.

Ltac splits := repeat match goal with |- _ /\ _ => split end.

Lemma persist_disk (m' : JSON) (bytes now : Z) (st : State) :
  disk (persist cfg m' bytes now st)
  = if onlyPrint cfg then disk st
    else writeFile_sidecar m' bytes now (disk st).
Proof. unfold persist. destruct (onlyPrint cfg); reflexivity. Qed.

(** The four ways a run on disk [d] can go: the load exits; the walk
    throws; the drain after the scan throws; the commit is reached. *)
Lemma run_spec (t0 t1 : Z) (d : Disk) :
  let r := run rt cfg t0 t1 (start d) in
  let st' := snd r in
  (watermark_of rt cfg d = None /\ fst r = 1 /\ disk st' = d /\
   puts st' = [] /\ submitted st' = [] /\ stdout st' = [] /\
   totalUploadedFiles st' = 0)
  \/
  (exists m, load cfg (start d) = (Ret m, start d) /\
     let wm := lastUploadTimeMs rt m in
     let tasks := map task_of_file (filter (eligible cfg wm) (walked cfg d)) in
     let m' := next_metadata m t0 t1 in
     let bytes := sidecar_bytes rt m' in
     watermark_of rt cfg d = Some wm /\
     ((snd (walk (source cfg) d) <> None /\ fst r = 1 /\ disk st' = d /\
       puts st' = [] /\ submitted st' = tasks /\
       file_lines (stdout st') = [] /\ totalUploadedFiles st' = 0)
      \/
      (snd (walk (source cfg) d) = None /\ onlyPrint cfg = false /\
       fst r = 1 /\ disk st' = d /\ queue st' = [] /\
       submitted st' = tasks /\ attempts cfg tasks (puts st') /\
       0 <= totalUploadedFiles st' < Z.of_nat (List.length tasks))
      \/
      (snd (walk (source cfg) d) = None /\
       disk st' = (if onlyPrint cfg then d
                   else writeFile_sidecar m' bytes t1 d) /\
       queue st' = [] /\
       submitted st' = (tasks ++ [sidecar_task cfg bytes])%list /\
       attempts cfg (tasks ++ [sidecar_task cfg bytes]) (puts st') /\
       Z.of_nat (List.length (file_lines (stdout st')))
       = (if quiet cfg then 0 else totalUploadedFiles st') /\
       ((fst r = 0 /\
         totalUploadedFiles st' = Z.of_nat (List.length tasks) + 1)
        \/ (fst r = 1 /\ onlyPrint cfg = false /\
            totalUploadedFiles st' = Z.of_nat (List.length tasks)))))).
Proof.
  cbn zeta. unfold run, watermark_of.
  destruct (main_cases rt cfg t0 t1 (start d))
    as [(errs & Hl & Hm) | (m & Hl & Hrest)]; rewrite Hl.
  - left. rewrite Hm. cbn. auto 8.
  - right. exists m. split; [reflexivity|]. split; [reflexivity|].
    cbn zeta in Hrest.
    set (wm := lastUploadTimeMs rt m) in *.
    destruct (scan_spec cfg wm (start d))
      as ((S1 & S2 & S3 & S4 & S5 & S6) & Hs).
    cbn [start disk puts totalUploadedFiles queue submitted stdout app] in *.
    unfold file_lines in S6 at 2. cbn [filter] in S6.
    destruct Hrest as [(e & Hscan & Hm) | (totals & Hscan & Hrest)].
    + left. rewrite Hm. cbn [fst snd].
      destruct (snd (walk (source cfg) d)); [|destruct Hs; congruence].
      destruct e; cbn; (splits; auto; discriminate).
    + destruct (snd (walk (source cfg) d)) eqn:Hw; [congruence|].
      right. cbn zeta in Hrest.
      set (st1 := snd (scan cfg wm (start d))) in *.
      destruct (drain_spec st1)
        as (D1 & D2 & D3 & (calls & D4 & D5) & D6 & D7).
      rewrite S1, S2, S3, S4, S5, S6 in *. cbn [app] in *.
      rewrite length_map in *. cbn [List.length Z.of_nat] in D6.
      destruct Hrest as [(e & Hdrain & Hm) | (Hdrain & Hm)].
      * left. rewrite Hm. cbn [fst snd].
        destruct D7 as [(D7 & _) | (e' & _ & D7 & D8)]; [congruence|].
        rewrite <- D4 in D5.
        destruct e; cbn; (splits; auto; lia).
      * right. rewrite Hm. split; [reflexivity|].
        set (st2 := snd (drain rt cfg st1)) in *.
        destruct (commit_spec m t0 t1 totals st2 D2)
          as (C1 & C2 & C3 & (calls' & C4 & C5) & C6 & C7).
        rewrite persist_disk, D1, D3, D4 in *.
        destruct D7 as [(_ & D7) | (e' & D7 & _)]; [|congruence].
        assert (Hatt : attempts cfg
                  (map task_of_file (filter (eligible cfg wm) (walked cfg d))
                   ++ [sidecar_task cfg
                         (sidecar_bytes rt (next_metadata m t0 t1))])
                  (calls ++ calls'))
          by (apply attempts_app; auto).
        destruct (commit rt cfg m t0 t1 totals st2) as [out st3].
        cbn [fst snd] in *.
        destruct C7 as [(-> & C7) | (e' & -> & Hp & C7)].
        -- cbn [fst snd]. rewrite C1, C2, C3, C4.
           splits; auto.
           ++ destruct (quiet cfg); lia.
           ++ left. split; [reflexivity | lia].
        -- destruct e'; cbn; rewrite C1, C2, C3, C4;
             (splits; auto;
              [unfold file_lines in *; destruct (quiet cfg); lia
              |right; splits; auto; lia]).
Qed.
End WholeRun.

(** ** The claims about the load and the scan *)

Lemma load_absent (rt : Runtime) (cfg : Config) (d : Disk) (e : JSError) :
  sidecar d = ReadFails e -> code e = Some "ENOENT" ->
  load cfg (start d) = (Ret (JObj []), start d)
  /\ watermark_of rt cfg d = Some (Some 0).
Proof.
  intros Hs Hc.
  assert (Hl : load cfg (start d) = (Ret (JObj []), start d)).
  { unfold load. cbn [start disk]. rewrite Hs, Hc. reflexivity. }
  split; [exact Hl|]. unfold watermark_of. rewrite Hl. reflexivity.
Qed.

(** C6.  An absent sidecar is not an error: the load returns the default
    metadata and the watermark is the epoch.  A sidecar that is not JSON, or
    whose content has no [uploadStartTime], ends the run with exit code 1
    before any task is submitted or any upload attempted. *)
Theorem load_absent_default_invalid_fatal
    (rt : Runtime) (cfg : Config) (t0 t1 : Z) (d : Disk) :
  (forall e, sidecar d = ReadFails e -> code e = Some "ENOENT" ->
     load cfg (start d) = (Ret (JObj []), start d)
     /\ watermark_of rt cfg d = Some (Some 0))
  /\
  ((exists msg, sidecar d = Unparsable msg)
   \/ (exists j, sidecar d = Parsed j /\ get_prop j "uploadStartTime" = None) ->
   let r := run rt cfg t0 t1 (start d) in
   fst r = 1 /\ submitted (snd r) = [] /\ puts (snd r) = []
   /\ stdout (snd r) = [] /\ disk (snd r) = d).
Proof.
  split.
  - intros e. apply load_absent.
  - intros Hbad. cbn zeta.
    destruct (run_spec rt cfg t0 t1 d) as [H | (m & Hl & _)].
    + cbn zeta in H. tauto.
    + exfalso. unfold load in Hl. cbn [start disk] in Hl.
      destruct Hbad as [(msg & Hs) | (j & Hs & Hg)]; rewrite Hs in Hl.
      * discriminate.
      * destruct j; try discriminate. rewrite Hg in Hl. discriminate.
Qed.

Lemma load_absent_default_invalid_fatal_witness :
  fst (run rt_ok cfg_backup 5000 5001 (start disk_garbled)) = 1
  /\ submitted (snd (run rt_ok cfg_backup 5000 5001 (start disk_garbled))) = []
  /\ puts (snd (run rt_ok cfg_backup 5000 5001 (start disk_garbled))) = []
  /\ stdout (snd (run rt_ok cfg_backup 5000 5001 (start disk_garbled))) = []
  /\ disk (snd (run rt_ok cfg_backup 5000 5001 (start disk_garbled))) = disk_garbled.
Proof.
  apply (proj2 (load_absent_default_invalid_fatal rt_ok cfg_backup 5000 5001
                  disk_garbled)).
  left. eexists. reflexivity.
Defined.

Lemma task_of_file_injective (f g : Stats) :
  task_of_file f = task_of_file g -> f = g.
Proof.
  destruct f, g. unfold task_of_file. cbn. intros H.
  injection H as -> -> ->. reflexivity.
Qed.

Lemma count_occ_filter (p : Stats -> bool) (l : list Stats) (f : Stats) :
  count_occ Stats_eq_dec (filter p l) f
  = if p f then count_occ Stats_eq_dec l f else O.
Proof.
  induction l as [|g l IH]; cbn [filter count_occ].
  - destruct (p f); reflexivity.
  - destruct (p g) eqn:Hg; cbn [count_occ];
      destruct (Stats_eq_dec g f) as [E|E]; rewrite IH; auto.
    + subst g. rewrite Hg. reflexivity.
    + subst g. rewrite Hg. reflexivity.
Qed.

(** The number of tasks the scan submits for a file. *)
Lemma scan_count (cfg : Config) (wm : option Z) (files : list Stats) (f : Stats) :
  count_occ UploadTask_eq_dec
    (map task_of_file (filter (eligible cfg wm) files)) (task_of_file f)
  = if eligible cfg wm f then count_occ Stats_eq_dec files f else O.
Proof.
  rewrite <- (count_occ_map task_of_file Stats_eq_dec UploadTask_eq_dec
                task_of_file_injective).
  apply count_occ_filter.
Qed.

(** C1, as amended.  In the scan phase the tasks submitted are the files
    found by the walk that are not the sidecar and whose modification time
    is at or after the watermark, each one once for each time the walk finds
    it, that is exactly once when the walk lists no file twice; a file
    modified strictly before the watermark gets no task.  With no prior
    metadata the watermark is the epoch, so that every file not modified
    before 1970 qualifies. *)
Theorem scan_submits_eligible (rt : Runtime) (cfg : Config)
    (wm : option Z) (st : State) :
  let files := walked cfg (disk st) in
  let tasks := map task_of_file (filter (eligible cfg wm) files) in
  submitted (snd (scan cfg wm st)) = (submitted st ++ tasks)%list
  /\ (forall f t, wm = Some t ->
        path f <> metadataFilePath cfg -> t <= mtimeMs f ->
        count_occ UploadTask_eq_dec tasks (task_of_file f)
        = count_occ Stats_eq_dec files f)
  /\ (forall f t, NoDup files -> In f files -> wm = Some t ->
        path f <> metadataFilePath cfg -> t <= mtimeMs f ->
        count_occ UploadTask_eq_dec tasks (task_of_file f) = 1%nat)
  /\ (forall f t, wm = Some t -> mtimeMs f < t ->
        count_occ UploadTask_eq_dec tasks (task_of_file f) = O)
  /\ (forall e, sidecar (disk st) = ReadFails e -> code e = Some "ENOENT" ->
        watermark_of rt cfg (disk st) = Some (Some 0)
        /\ forall f, path f <> metadataFilePath cfg -> 0 <= mtimeMs f ->
             eligible cfg (Some 0) f = true).
Proof.
  cbn zeta.
  assert (Hcount : forall f t, wm = Some t ->
             path f <> metadataFilePath cfg -> t <= mtimeMs f ->
             count_occ UploadTask_eq_dec
               (map task_of_file (filter (eligible cfg wm) (walked cfg (disk st))))
               (task_of_file f)
             = count_occ Stats_eq_dec (walked cfg (disk st)) f).
  { intros f t -> Hp Ht. rewrite scan_count. unfold eligible, shouldUpload.
    apply String.eqb_neq in Hp. rewrite Hp.
    replace (t <=? mtimeMs f) with true by (symmetry; apply Z.leb_le; lia).
    reflexivity. }
  split; [|split; [|split; [|split]]].
  - apply scan_spec.
  - exact Hcount.
  - intros f t Hnd Hin Hwm Hp Ht. rewrite (Hcount f t Hwm Hp Ht).
    apply NoDup_count_occ'; assumption.
  - intros f t -> Ht. rewrite scan_count. unfold eligible, shouldUpload.
    replace (t <=? mtimeMs f) with false by (symmetry; apply Z.leb_gt; lia).
    rewrite andb_false_r. reflexivity.
  - intros e Hs Hc. split.
    + apply (load_absent rt cfg (disk st) e Hs Hc).
    + intros f Hp Ht. unfold eligible, shouldUpload.
      apply String.eqb_neq in Hp. rewrite Hp. cbn. apply Z.leb_le. lia.
Qed.

Lemma scan_submits_eligible_witness :
  count_occ UploadTask_eq_dec
    (map task_of_file
       (filter (eligible cfg_backup (Some 1000))
          (walked cfg_backup disk_two_files)))
    (task_of_file (mkStats "/data/b.txt" 20 1500))
  = count_occ Stats_eq_dec (walked cfg_backup disk_two_files)
      (mkStats "/data/b.txt" 20 1500).
Proof.
  apply (proj1 (proj2 (scan_submits_eligible rt_ok cfg_backup (Some 1000)
                         (start disk_two_files)))
           (mkStats "/data/b.txt" 20 1500) 1000).
  - reflexivity.
  - vm_compute. discriminate.
  - vm_compute. discriminate.
Defined.

(** C1 as stated fails on a first run over a file dated before 1970: the
    watermark is the epoch and the file, found by the walk, gets no task. *)
Lemma pre_epoch_file_not_submitted :
  watermark_of rt_ok cfg_backup disk_pre_epoch = Some (Some 0)
  /\ ~ (forall f,
          In f (walked cfg_backup disk_pre_epoch) ->
          path f <> metadataFilePath cfg_backup ->
          In (task_of_file f)
            (submitted (snd (scan cfg_backup (Some 0) (start disk_pre_epoch))))).
Proof.
  split; [reflexivity|].
  intros H.
  apply (H (mkStats "/data/old.txt" 1 (-1))).
  - left. reflexivity.
  - vm_compute. discriminate.
Qed.

(** ** The claims about the metadata *)

Section Metadata.
Variable rt : Runtime.
Variable cfg : Config.

(** What a successful run that writes leaves on the disk. *)
Lemma run_success_disk (t0 t1 : Z) (d : Disk) :
  onlyPrint cfg = false ->
  fst (run rt cfg t0 t1 (start d)) = 0 ->
  exists m,
    load cfg (start d) = (Ret m, start d)
    /\ snd (walk (source cfg) d) = None
    /\ disk (snd (run rt cfg t0 t1 (start d)))
       = writeFile_sidecar (next_metadata m t0 t1)
           (sidecar_bytes rt (next_metadata m t0 t1)) t1 d.
Proof.
  intros Hp Hc.
  destruct (run_spec rt cfg t0 t1 d) as [H | (m & Hl & H)]; cbn zeta in H.
  - destruct H as (_ & H & _). congruence.
  - exists m. split; [exact Hl|].
    destruct H as (_ & [H | [H | H]]).
    + destruct H as (_ & H & _). congruence.
    + destruct H as (_ & _ & H & _). congruence.
    + destruct H as (Hw & Hd & _). rewrite Hp in Hd. auto.
Qed.

Lemma watermark_after_write (m : JSON) (t0 t1 bytes now : Z) (d : Disk) :
  load cfg (start (writeFile_sidecar (next_metadata m t0 t1) bytes now d))
  = (Ret (next_metadata m t0 t1),
     start (writeFile_sidecar (next_metadata m t0 t1) bytes now d))
  /\ watermark_of rt cfg (writeFile_sidecar (next_metadata m t0 t1) bytes now d)
     = Some (Some t0).
Proof.
  assert (Hl : load cfg (start (writeFile_sidecar (next_metadata m t0 t1) bytes now d))
               = (Ret (next_metadata m t0 t1),
                  start (writeFile_sidecar (next_metadata m t0 t1) bytes now d)))
    by reflexivity.
  split; [exact Hl|]. unfold watermark_of. rewrite Hl. reflexivity.
Qed.

Lemma get_deleted (m : JSON) (key : string) :
  get_prop (delete_prop m key) key = None.
Proof.
  destruct m as [| | | | |items|fs]; try reflexivity.
  cbn [delete_prop get_prop].
  induction fs as [|[k v] fs IH]; [reflexivity|].
  cbn [filter fst]. destruct (String.eqb key k) eqn:Hk; cbn [negb].
  - exact IH.
  - cbn [lookup]. rewrite Hk. exact IH.
Qed.

Lemma history_depth_delete (m : JSON) :
  history_depth (delete_prop m "lastMetaData") = O.
Proof.
  destruct m as [| | | | |items|fs]; try reflexivity.
  cbn [delete_prop history_depth].
  induction fs as [|[k v] fs IH]; [reflexivity|].
  cbn [filter fst]. destruct (String.eqb "lastMetaData" k) eqn:Hk; cbn [negb].
  - exact IH.
  - rewrite Hk. exact IH.
Qed.

Lemma history_starts_delete (m : JSON) :
  (List.length (history_starts (delete_prop m "lastMetaData")) <= 1)%nat.
Proof.
  destruct m as [| | | | |items|fs]; try (cbn; lia).
  cbn [delete_prop history_starts List.length].
  apply le_n_S.
  induction fs as [|[k v] fs IH]; [cbn; lia|].
  cbn [filter fst]. destruct (String.eqb "lastMetaData" k) eqn:Hk; cbn [negb].
  - exact IH.
  - rewrite Hk. exact IH.
Qed.
End Metadata.

(** C2, as amended.  The [uploadStartTime] a run writes to the sidecar is the
    instant read when the run began, before the load's result is used and
    the scan starts, and it is the watermark of the next run; it is at or
    after the previous watermark whenever the clock, at the start of the
    run, did not read earlier than that watermark. *)
Theorem persisted_watermark_is_run_start
    (rt : Runtime) (cfg : Config) (t0 t1 : Z) (d : Disk) :
  onlyPrint cfg = false ->
  fst (run rt cfg t0 t1 (start d)) = 0 ->
  let d' := disk (snd (run rt cfg t0 t1 (start d))) in
  (exists m', sidecar d' = Parsed m'
              /\ get_prop m' "uploadStartTime" = Some (JDate t0))
  /\ watermark_of rt cfg d' = Some (Some t0)
  /\ (forall prev next,
        watermark_of rt cfg d = Some (Some prev) ->
        watermark_of rt cfg d' = Some (Some next) ->
        prev <= t0 -> prev <= next).
Proof.
  intros Hp Hc. cbn zeta.
  destruct (run_success_disk rt cfg t0 t1 d Hp Hc) as (m & _ & _ & ->).
  destruct (watermark_after_write rt cfg m t0 t1
              (sidecar_bytes rt (next_metadata m t0 t1)) t1 d) as (_ & Hw).
  split; [|split].
  - exists (next_metadata m t0 t1). split; reflexivity.
  - exact Hw.
  - intros prev next _ Hn Hle. rewrite Hw in Hn. injection Hn as <-. exact Hle.
Qed.

Lemma persisted_watermark_is_run_start_witness :
  watermark_of rt_ok cfg_backup
    (disk (snd (run rt_ok cfg_backup 2000 2001 (start disk_after_1000))))
  = Some (Some 2000).
Proof.
  apply (proj1 (proj2 (persisted_watermark_is_run_start rt_ok cfg_backup
                         2000 2001 disk_after_1000 eq_refl eq_refl))).
Defined.

(** C2 as stated fails when the clock reads earlier than the instant the
    sidecar holds: the run that starts at instant 500 on a sidecar written at
    instant 1000 persists the watermark 500. *)
Lemma watermark_can_decrease :
  watermark_of rt_ok cfg_backup disk_after_1000 = Some (Some 1000)
  /\ fst (run rt_ok cfg_backup 500 501 (start disk_after_1000)) = 0
  /\ watermark_of rt_ok cfg_backup
       (disk (snd (run rt_ok cfg_backup 500 501 (start disk_after_1000))))
     = Some (Some 500)
  /\ ~ (1000 <= 500).
Proof.
  repeat split; try reflexivity. lia.
Qed.

(** C7, as amended.  A save nests the previous metadata object under the
    [lastMetaData] key after deleting that object's own [lastMetaData]: the
    sidecar a run writes holds the metadata of that run and of the one
    before it, and nothing older. *)
Theorem persisted_history_is_one_deep
    (rt : Runtime) (cfg : Config) (t0 t1 : Z) (d : Disk) :
  onlyPrint cfg = false ->
  fst (run rt cfg t0 t1 (start d)) = 0 ->
  exists m,
    load cfg (start d) = (Ret m, start d)
    /\ sidecar (disk (snd (run rt cfg t0 t1 (start d))))
       = Parsed (next_metadata m t0 t1)
    /\ get_prop (next_metadata m t0 t1) "lastMetaData"
       = Some (delete_prop m "lastMetaData")
    /\ get_prop (delete_prop m "lastMetaData") "lastMetaData" = None
    /\ history_depth (next_metadata m t0 t1) = 1%nat
    /\ (List.length (history_starts (next_metadata m t0 t1)) <= 2)%nat.
Proof.
  intros Hp Hc.
  destruct (run_success_disk rt cfg t0 t1 d Hp Hc) as (m & Hl & _ & ->).
  exists m. split; [exact Hl|]. split; [reflexivity|]. split; [reflexivity|].
  split; [|split].
  - apply get_deleted.
  - change (S (history_depth (delete_prop m "lastMetaData")) = 1%nat).
    now rewrite history_depth_delete.
  - change (S (List.length (history_starts (delete_prop m "lastMetaData"))) <= 2)%nat.
    pose proof (history_starts_delete m). lia.
Qed.

Lemma persisted_history_is_one_deep_witness :
  exists m,
    load cfg_backup (start disk_after_1000) = (Ret m, start disk_after_1000)
    /\ sidecar (disk (snd (run rt_ok cfg_backup 2000 2001 (start disk_after_1000))))
       = Parsed (next_metadata m 2000 2001)
    /\ get_prop (next_metadata m 2000 2001) "lastMetaData"
       = Some (delete_prop m "lastMetaData")
    /\ get_prop (delete_prop m "lastMetaData") "lastMetaData" = None
    /\ history_depth (next_metadata m 2000 2001) = 1%nat
    /\ (List.length (history_starts (next_metadata m 2000 2001)) <= 2)%nat.
Proof.
  apply (persisted_history_is_one_deep rt_ok cfg_backup 2000 2001
           disk_after_1000 eq_refl eq_refl).
Defined.

(** C7 as stated fails after three runs: the sidecar holds the start
    instants of the third and the second run, not of the first. *)
Lemma history_drops_older_runs :
  fst (run rt_ok cfg_backup 10 11 (start disk_empty)) = 0
  /\ fst (run rt_ok cfg_backup 20 21
            (start (disk_after rt_ok cfg_backup 10 11 disk_empty))) = 0
  /\ fst (run rt_ok cfg_backup 30 31
            (start (disk_after rt_ok cfg_backup 20 21
                      (disk_after rt_ok cfg_backup 10 11 disk_empty)))) = 0
  /\ exists j,
       sidecar disk_after_three_runs = Parsed j
       /\ history_starts j = [Some (JDate 30); Some (JDate 20)]
       /\ ~ In (Some (JDate 10)) (history_starts j)
       /\ history_depth j = 1%nat.
Proof.
  repeat split; try reflexivity.
  eexists. split; [reflexivity|]. split; [reflexivity|]. split; [|reflexivity].
  cbn. intros [H | [H | []]]; discriminate.
Qed.

(** ** The claims about whole runs *)



(** C4.  With the scheduler as the spec describes it: the error the drain
    throws for a permanently failed task reaches [main]'s caller, which logs
    it and exits with code 1.  In particular, outside print-only mode, an
    eligible file whose upload the object store rejects at every attempt
    makes the run exit with code 1 with the disk, and so the watermark, as
    they were, after every task of the scan has been run.  A run ends with
    exit code 0 or 1, and with 0 only when every task submitted has
    completed: if fewer tasks were counted as uploaded than were submitted,
    the exit code is 1.  A run that reaches the drain has, when it ends, run
    every task submitted (outside print-only mode each has its call to the
    object store) and left none pending; and unless the only task that
    failed is the sidecar's, the disk is as it was. *)
Theorem failed_upload_aborts_run
    (rt : Runtime) (cfg : Config) (t0 t1 : Z) (d : Disk) :
  let r := run rt cfg t0 t1 (start d) in
  let st' := snd r in
  let n := Z.of_nat (List.length (submitted st')) in
  (fst r = 0 \/ fst r = 1)
  /\ (fst r = 0 -> totalUploadedFiles st' = n)
  /\ (totalUploadedFiles st' < n -> fst r = 1)
  /\ (fst r = 1 -> disk st' = d \/ totalUploadedFiles st' + 1 = n)
  /\ (watermark_of rt cfg d <> None -> snd (walk (source cfg) d) = None ->
      queue st' = [] /\ attempts cfg (submitted st') (puts st'))
  /\ (forall m totals st1 e,
        load cfg (start d) = (Ret m, start d) ->
        scan cfg (lastUploadTimeMs rt m) (start d) = (Ret totals, st1) ->
        fst (drain rt cfg st1) = Throw e ->
        r = (1, logError_thrown e (snd (drain rt cfg st1))))
  /\ (forall wm f,
        onlyPrint cfg = false ->
        watermark_of rt cfg d = Some wm ->
        snd (walk (source cfg) d) = None ->
        In f (walked cfg d) -> eligible cfg wm f = true ->
        (forall earlier dst, bucket_upload rt earlier (path f) dst <> None) ->
        fst r = 1 /\ disk st' = d
        /\ submitted st'
           = map task_of_file (filter (eligible cfg wm) (walked cfg d))
        /\ attempts cfg (submitted st') (puts st')).
Proof.
  cbn zeta.
  assert (Hrej : forall wm f,
             onlyPrint cfg = false ->
             watermark_of rt cfg d = Some wm ->
             snd (walk (source cfg) d) = None ->
             In f (walked cfg d) -> eligible cfg wm f = true ->
             (forall earlier dst, bucket_upload rt earlier (path f) dst <> None) ->
             fst (run rt cfg t0 t1 (start d)) = 1
             /\ disk (snd (run rt cfg t0 t1 (start d))) = d
             /\ submitted (snd (run rt cfg t0 t1 (start d)))
                = map task_of_file (filter (eligible cfg wm) (walked cfg d))
             /\ attempts cfg (submitted (snd (run rt cfg t0 t1 (start d))))
                  (puts (snd (run rt cfg t0 t1 (start d))))).
  { intros wm f Hp Hw Hk Hin He Hno.
    destruct (main_cases rt cfg t0 t1 (start d))
      as [(errs & Hl & _) | (m & Hl & Hrest)];
      unfold watermark_of in Hw; rewrite Hl in Hw; [discriminate|].
    injection Hw as <-. cbn zeta in Hrest.
    destruct (scan_spec cfg (lastUploadTimeMs rt m) (start d))
      as ((S1 & S2 & _ & S4 & S5 & _) & Hs).
    cbn [start disk puts queue submitted app] in *. rewrite Hk in Hs.
    destruct Hrest as [(e & Hscan & _) | (totals & _ & Hrest)];
      [destruct Hs; congruence|].
    set (st1 := snd (scan cfg (lastUploadTimeMs rt m) (start d))) in *.
    destruct (drain_spec rt cfg st1) as (D1 & _ & D3 & (calls & D4 & D5) & _).
    assert (Hthrow : exists e, fst (drain rt cfg st1) = Throw e).
    { unfold drain, waitIdle.
      set (st1' := if 1 <=? queue_size st1 then console_log LWaiting st1
                   else st1).
      assert (Hq : queue st1' = queue st1)
        by (unfold st1'; destruct (1 <=? queue_size st1); reflexivity).
      destruct (run_tasks_rejected rt cfg (queue st1') (task_of_file f) Hp)
        with (failure := @None Thrown) (st := set_queue [] st1') as [e He'].
      - rewrite Hq, S4. apply in_map, filter_In. auto.
      - exact Hno.
      - destruct (run_tasks rt cfg (queue st1') None (set_queue [] st1'))
          as [out st2]. cbn [fst] in He'. subst out. exists e. reflexivity. }
    destruct Hthrow as [e He'].
    destruct Hrest as [(e' & _ & Hm) | (Hret & _)]; [|congruence].
    unfold run. rewrite Hm. cbn [fst snd].
    rewrite S2 in D4. cbn [app] in D4.
    assert (Hfin : forall x, disk (logError_thrown x (snd (drain rt cfg st1)))
                             = disk (snd (drain rt cfg st1))
                           /\ submitted (logError_thrown x (snd (drain rt cfg st1)))
                              = submitted (snd (drain rt cfg st1))
                           /\ puts (logError_thrown x (snd (drain rt cfg st1)))
                              = puts (snd (drain rt cfg st1)))
      by (intros x; destruct x; cbn; auto).
    destruct (Hfin e') as (F1 & F2 & F3). rewrite F1, F2, F3, D1, D3, D4, S1, S5.
    rewrite S4 in D5. auto. }
  assert (Hprop : forall m totals st1 e,
             load cfg (start d) = (Ret m, start d) ->
             scan cfg (lastUploadTimeMs rt m) (start d) = (Ret totals, st1) ->
             fst (drain rt cfg st1) = Throw e ->
             run rt cfg t0 t1 (start d)
             = (1, logError_thrown e (snd (drain rt cfg st1)))).
  { intros m totals st1 e Hl Hs Hd. unfold run, main, bind.
    rewrite Hl, Hs. destruct (drain rt cfg st1) as [out st2].
    cbn [fst snd] in *. subst out. reflexivity. }
  assert (Hmain :
            (fst (run rt cfg t0 t1 (start d)) = 0
             \/ fst (run rt cfg t0 t1 (start d)) = 1)
            /\ (fst (run rt cfg t0 t1 (start d)) = 0 ->
                totalUploadedFiles (snd (run rt cfg t0 t1 (start d)))
                = Z.of_nat (List.length (submitted (snd (run rt cfg t0 t1 (start d))))))
            /\ (totalUploadedFiles (snd (run rt cfg t0 t1 (start d)))
                < Z.of_nat (List.length (submitted (snd (run rt cfg t0 t1 (start d)))))
                -> fst (run rt cfg t0 t1 (start d)) = 1)
            /\ (fst (run rt cfg t0 t1 (start d)) = 1 ->
                disk (snd (run rt cfg t0 t1 (start d))) = d
                \/ totalUploadedFiles (snd (run rt cfg t0 t1 (start d))) + 1
                   = Z.of_nat
                       (List.length
                          (submitted (snd (run rt cfg t0 t1 (start d))))))
            /\ (watermark_of rt cfg d <> None ->
                snd (walk (source cfg) d) = None ->
                queue (snd (run rt cfg t0 t1 (start d))) = []
                /\ attempts cfg (submitted (snd (run rt cfg t0 t1 (start d))))
                     (puts (snd (run rt cfg t0 t1 (start d)))))).
  { destruct (run_spec rt cfg t0 t1 d) as [H | (m & Hl & H)]; cbn zeta in H.
    - destruct H as (Hw & Hc & Hd & _ & Hs & _ & Ht).
      rewrite Hc, Hs, Ht. cbn.
      repeat match goal with |- _ /\ _ => split end; auto; try lia; congruence.
    - destruct H as (Hw & [H | [H | H]]).
      + destruct H as (Hk & Hc & Hd & _ & Hs & _ & Ht). rewrite Hc, Hs, Ht.
        repeat match goal with |- _ /\ _ => split end; auto; try lia; congruence.
      + destruct H as (Hk & Hp & Hc & Hd & Hq & Hs & Ha & Ht).
        rewrite Hc, Hs, length_map.
        repeat match goal with |- _ /\ _ => split end; auto; lia.
      + destruct H as (Hk & Hd & Hq & Hs & Ha & _ & Ht).
        rewrite Hs, length_app, length_map. cbn [List.length].
        rewrite length_map in Ht.
        destruct Ht as [(Hc & Ht) | (Hc & Hp & Ht)]; rewrite Hc;
          repeat match goal with |- _ /\ _ => split end; auto; lia. }
  destruct Hmain as (H1 & H2 & H3 & H4 & H5).
  repeat match goal with |- _ /\ _ => split end; auto.
Qed.

Lemma failed_upload_aborts_run_witness :
  fst (run rt_rejecting_a cfg_backup 1000 1001 (start disk_two_files)) = 1
  /\ disk (snd (run rt_rejecting_a cfg_backup 1000 1001 (start disk_two_files)))
     = disk_two_files
  /\ submitted (snd (run rt_rejecting_a cfg_backup 1000 1001 (start disk_two_files)))
     = map task_of_file
         (filter (eligible cfg_backup (Some 0)) (walked cfg_backup disk_two_files))
  /\ attempts cfg_backup
       (submitted
          (snd (run rt_rejecting_a cfg_backup 1000 1001 (start disk_two_files))))
       (puts (snd (run rt_rejecting_a cfg_backup 1000 1001 (start disk_two_files)))).
Proof.
  apply (proj2 (proj2 (proj2 (proj2 (proj2 (proj2
           (failed_upload_aborts_run rt_rejecting_a cfg_backup 1000 1001
              disk_two_files))))))
           (Some 0) (mkStats "/data/a.txt" 10 100)).
  - reflexivity.
  - reflexivity.
  - reflexivity.
  - left. reflexivity.
  - reflexivity.
  - intros earlier dst. vm_compute. discriminate.
Defined.

(** ** Print-only mode *)

Section Labels.
Variable rt : Runtime.
Variable cfg : Config.

Lemma labelled_snoc (out : list OutLine) (l : OutLine) :
  labelled cfg out ->
  match l with
  | LFile _ label _ _ => label = uploadedLabel cfg
  | _ => True
  end ->
  labelled cfg (out ++ [l]).
Proof.
  intros H Hl. apply Forall_app. split; [exact H|]. constructor; auto.
Qed.

Lemma keeps_bind {A B} (m : M State A) (k : A -> M State B) :
  keeps_labels cfg m -> (forall a, keeps_labels cfg (k a)) ->
  keeps_labels cfg (bind m k).
Proof.
  intros Hm Hk st Hst. unfold bind. specialize (Hm st Hst).
  destruct (m st) as [[a|e|c] st1]; cbn [snd] in *; auto.
  apply Hk. exact Hm.
Qed.

Lemma keeps_effect (f : State -> State) :
  (forall st, labelled cfg (stdout st) -> labelled cfg (stdout (f st))) ->
  keeps_labels cfg (effect f).
Proof. intros H st Hst. apply H. exact Hst. Qed.

Lemma keeps_run_tasks (tasks : list UploadTask) :
  forall failure, keeps_labels cfg (run_tasks rt cfg tasks failure).
Proof.
  induction tasks as [|t rest IH]; intros failure st Hst; [exact Hst|].
  cbn [run_tasks].
  destruct (upload_task_spec rt cfg t st)
    as (errs & k & _ & _ & [Heq | (_ & e & Heq)]); rewrite Heq; apply IH.
  - unfold count_uploaded, print_file_line, emit, console_log, incr_fileNum.
    destruct (quiet cfg); cbn; [exact Hst|].
    apply labelled_snoc; auto.
  - exact Hst.
Qed.

Lemma keeps_waitIdle : keeps_labels cfg (waitIdle rt cfg).
Proof. intros st Hst. unfold waitIdle. apply keeps_run_tasks. exact Hst. Qed.

Lemma keeps_load : keeps_labels cfg (load cfg).
Proof.
  intros st Hst.
  destruct (load_spec cfg st) as [(m & -> & _) | (errs & ->)]; exact Hst.
Qed.

Lemma keeps_scan (wm : option Z) : keeps_labels cfg (scan cfg wm).
Proof.
  intros st Hst. unfold scan.
  destruct (walk (source cfg) (disk st)) as [files thrown].
  assert (H : forall tf ts i st0,
             labelled cfg (stdout st0) ->
             labelled cfg (stdout (snd (scan_loop cfg files wm tf ts i st0)))).
  { clear. induction files as [|f rest IH]; intros tf ts i st0 H0; [exact H0|].
    cbn [scan_loop].
    destruct (String.eqb (path f) (metadataFilePath cfg)); [now apply IH|].
    apply IH.
    destruct (shouldUpload (mtimeMs f) wm);
      destruct ((i + 1) mod 10000 =? 0); cbn; auto;
      apply labelled_snoc; auto. }
  specialize (H 0 0 0 st Hst).
  destruct (scan_loop cfg files wm 0 0 0 st) as [[tf ts] st1].
  destruct thrown; exact H.
Qed.

Lemma keeps_drain : keeps_labels cfg (drain rt cfg).
Proof.
  intros st Hst. unfold drain.
  assert (H1 : labelled cfg
                 (stdout (if 1 <=? queue_size st
                          then console_log LWaiting st else st)))
    by (destruct (1 <=? queue_size st); cbn; auto; apply labelled_snoc; auto).
  apply keeps_waitIdle in H1.
  destruct (waitIdle rt cfg _) as [[[]|e|c] st2]; cbn [snd] in *; auto.
  destruct (1 <=? queue_size st); cbn; auto. apply labelled_snoc; auto.
Qed.

Lemma keeps_main (t0 t1 : Z) : keeps_labels cfg (main rt cfg t0 t1).
Proof.
  unfold main, commit.
  repeat (apply keeps_bind; [|intros ?]);
    auto using keeps_load, keeps_scan, keeps_drain, keeps_waitIdle;
    apply keeps_effect; intros st Hst.
  - unfold persist. destruct (onlyPrint cfg); exact Hst.
  - exact Hst.
  - unfold report. cbn. rewrite <- app_assoc.
    apply Forall_app. split; [exact Hst|]. repeat constructor.
Qed.

Lemma labelled_run (t0 t1 : Z) (d : Disk) :
  labelled cfg (stdout (snd (run rt cfg t0 t1 (start d)))).
Proof.
  unfold run.
  pose proof (keeps_main t0 t1 (start d) (Forall_nil _)) as H.
  destruct (main rt cfg t0 t1 (start d)) as [[[]|e|c] st1]; cbn [snd] in *; auto.
Qed.
End Labels.

(** C8, as amended.  A run in print-only mode makes no call to the object
    store and leaves the disk, the sidecar included, as it was.  When it
    gets past the load and the walk it ends with exit code 0 and, with [N]
    eligible files, has printed [N + 1] per-file lines, one for each eligible
    file and one for the sidecar, or none in quiet mode; each of them reads
    "will upload". *)
Theorem print_only_run
    (rt : Runtime) (cfg : Config) (t0 t1 : Z) (d : Disk) :
  onlyPrint cfg = true ->
  let r := run rt cfg t0 t1 (start d) in
  puts (snd r) = [] /\ disk (snd r) = d
  /\ uploadedLabel cfg = "will upload"
  /\ labelled cfg (stdout (snd r))
  /\ (forall wm,
        watermark_of rt cfg d = Some wm ->
        snd (walk (source cfg) d) = None ->
        fst r = 0
        /\ Z.of_nat (List.length (file_lines (stdout (snd r))))
           = if quiet cfg then 0
             else Z.of_nat (List.length (filter (eligible cfg wm) (walked cfg d)))
                  + 1).
Proof.
  intros Hp. cbn zeta.
  assert (Hlab : uploadedLabel cfg = "will upload")
    by (unfold uploadedLabel; rewrite Hp; reflexivity).
  pose proof (labelled_run rt cfg t0 t1 d) as Hl'.
  destruct (run_spec rt cfg t0 t1 d) as [H | (m & Hl & H)]; cbn zeta in H.
  - destruct H as (Hw & _ & Hd & Hq & _).
    repeat match goal with |- _ /\ _ => split end; auto.
    intros wm Hw'. congruence.
  - destruct H as (Hw & [H | [H | H]]).
    + destruct H as (Hk & _ & Hd & Hq & _).
      repeat match goal with |- _ /\ _ => split end; auto.
      intros wm _ Hk'. congruence.
    + destruct H as (_ & Hp' & _). congruence.
    + destruct H as (Hk & Hd & _ & _ & (_ & _ & Ha) & Hlines & Ht).
      rewrite Hp in Hd. rewrite length_map in Ht.
      destruct Ht as [(Hc & Ht) | (_ & Hp' & _)]; [|congruence].
      repeat match goal with |- _ /\ _ => split end; auto.
      intros wm Hw' _. rewrite Hw in Hw'. injection Hw' as <-.
      split; [exact Hc|]. rewrite Hlines, Ht. reflexivity.
Qed.

Lemma print_only_run_witness :
  puts (snd (run rt_ok cfg_print 1000 1001 (start disk_one_file))) = []
  /\ disk (snd (run rt_ok cfg_print 1000 1001 (start disk_one_file)))
     = disk_one_file.
Proof.
  split.
  - apply (print_only_run rt_ok cfg_print 1000 1001 disk_one_file eq_refl).
  - apply (print_only_run rt_ok cfg_print 1000 1001 disk_one_file eq_refl).
Defined.

(** C8 as stated fails with one eligible file: two per-file lines are
    printed, the second for the sidecar. *)
Lemma print_only_prints_sidecar_line :
  onlyPrint cfg_print = true
  /\ List.length (filter (eligible cfg_print (Some 0)) (walked cfg_print disk_one_file))
     = 1%nat
  /\ file_lines (stdout (snd (run rt_ok cfg_print 1000 1001 (start disk_one_file))))
     = [LFile 1 "will upload" "a.txt" 10;
        LFile 2 "will upload" ".backup-folder.json" 2]
  /\ List.length
       (file_lines (stdout (snd (run rt_ok cfg_print 1000 1001 (start disk_one_file)))))
     <> 1%nat.
Proof.
  repeat split; try reflexivity. vm_compute. discriminate.
Qed.

(** ** Paths and the walk *)

Lemma length_append (a b : string) :
  String.length (a ++ b) = (String.length a + String.length b)%nat.
Proof. induction a as [|c a IH]; cbn; [reflexivity | now rewrite IH]. Qed.






Lemma walk_entry_dir (dir n : string) (ents : list Dirent) :
  walk_entry dir (DDir n None ents) = walk_seq (walk_entry (path_join dir n)) ents.
Proof. reflexivity. Qed.




(** ** Two runs in a row *)

Section Rewrite.
Variable dir : string.
Variable bytes now : Z.

Lemma walk_seq_app (visit : Dirent -> Yielded) (l1 l2 : list Dirent) :
  walk_seq visit (l1 ++ l2)
  = match walk_seq visit l1 with
    | (ys, Some e) => (ys, Some e)
    | (ys, None) => let (zs, r) := walk_seq visit l2 in ((ys ++ zs)%list, r)
    end.
Proof.
  induction l1 as [|d l1 IH]; cbn [app walk_seq].
  - destruct (walk_seq visit l2). reflexivity.
  - destruct (visit d) as [ys [e|]]; [reflexivity|].
    rewrite IH. destruct (walk_seq visit l1) as [zs [e|]].
    + reflexivity.
    + destruct (walk_seq visit l2) as [ws r]. now rewrite app_assoc.
Qed.

(** Writing the sidecar changes, among the files of the directory, only the
    one with the sidecar's path. *)
Lemma walk_entry_restat (d : Dirent) :
  snd (walk_entry dir (restat sidecar_name bytes now d)) = snd (walk_entry dir d)
  /\ filter (other_than (path_join dir sidecar_name))
       (fst (walk_entry dir (restat sidecar_name bytes now d)))
     = filter (other_than (path_join dir sidecar_name)) (fst (walk_entry dir d)).
Proof.
  destruct d as [n sz mt | n err ents | n]; cbn [restat]; auto.
  destruct (String.eqb sidecar_name n) eqn:Hn; auto.
  apply String.eqb_eq in Hn. subst n. cbn [walk_entry fst snd filter].
  unfold other_than. cbn [path]. rewrite String.eqb_refl. cbn. auto.
Qed.

Lemma walk_seq_restat (ents : list Dirent) :
  snd (walk_seq (walk_entry dir) (map (restat sidecar_name bytes now) ents))
  = snd (walk_seq (walk_entry dir) ents)
  /\ filter (other_than (path_join dir sidecar_name))
       (fst (walk_seq (walk_entry dir) (map (restat sidecar_name bytes now) ents)))
     = filter (other_than (path_join dir sidecar_name))
         (fst (walk_seq (walk_entry dir) ents)).
Proof.
  induction ents as [|d ents (IH1 & IH2)]; [auto|].
  cbn [map walk_seq].
  destruct (walk_entry_restat d) as (H1 & H2).
  destruct (walk_entry dir (restat sidecar_name bytes now d)) as [ys' o'].
  destruct (walk_entry dir d) as [ys o]. cbn [fst snd] in *. subst o'.
  destruct o as [e|]; [auto|].
  destruct (walk_seq (walk_entry dir) (map (restat sidecar_name bytes now) ents))
    as [zs' r'].
  destruct (walk_seq (walk_entry dir) ents) as [zs r]. cbn [fst snd] in *.
  split; [exact IH1|]. rewrite !filter_app. congruence.
Qed.

Lemma walk_seq_write_entry (ents : list Dirent) :
  snd (walk_seq (walk_entry dir) (write_entry sidecar_name bytes now ents))
  = snd (walk_seq (walk_entry dir) ents)
  /\ filter (other_than (path_join dir sidecar_name))
       (fst (walk_seq (walk_entry dir) (write_entry sidecar_name bytes now ents)))
     = filter (other_than (path_join dir sidecar_name))
         (fst (walk_seq (walk_entry dir) ents)).
Proof.
  unfold write_entry.
  destruct (existsb (has_name sidecar_name) ents); [apply walk_seq_restat|].
  rewrite walk_seq_app.
  destruct (walk_seq (walk_entry dir) ents) as [ys [e|]]; [auto|].
  cbn [walk_seq walk_entry fst snd]. split; [reflexivity|].
  rewrite app_nil_r, filter_app. cbn [filter].
  unfold other_than at 2. cbn [path]. rewrite String.eqb_refl. cbn.
  apply app_nil_r.
Qed.
End Rewrite.

Lemma filter_eligible (cfg : Config) (wm : option Z) (l : list Stats) :
  filter (eligible cfg wm) l
  = filter (fun f => shouldUpload (mtimeMs f) wm)
      (filter (other_than (metadataFilePath cfg)) l).
Proof.
  induction l as [|f l IH]; [reflexivity|].
  cbn [filter]. unfold eligible at 1. unfold other_than at 1.
  destruct (String.eqb (path f) (metadataFilePath cfg)); cbn [negb andb filter];
    [exact IH|].
  destruct (shouldUpload (mtimeMs f) wm); now rewrite IH.
Qed.

(** The scan after the sidecar is written meets the same eligible files. *)
Lemma walk_after_write (cfg : Config) (wm : option Z) (j : JSON)
    (bytes now : Z) (d : Disk) :
  snd (walk (source cfg) (writeFile_sidecar j bytes now d))
  = snd (walk (source cfg) d)
  /\ filter (eligible cfg wm) (walked cfg (writeFile_sidecar j bytes now d))
     = filter (eligible cfg wm) (walked cfg d).
Proof.
  rewrite !filter_eligible. unfold walked, walk, writeFile_sidecar.
  cbn [root_unreadable root].
  destruct (root_unreadable d); [auto|].
  destruct (walk_seq_write_entry (source cfg) bytes now (root d)) as (H1 & H2).
  split; [exact H1|]. unfold metadataFilePath. now rewrite H2.
Qed.

(** C9, as amended.  After a run that wrote the sidecar and ended with exit
    code 0, a second run on the disk as the first left it, where no data
    file is modified at or after the instant the first run started, submits
    the sidecar and nothing else, and calls the object store for the sidecar
    only. *)
Theorem second_run_uploads_only_sidecar
    (rt : Runtime) (cfg : Config) (t0 t1 t2 t3 : Z) (d : Disk) :
  onlyPrint cfg = false ->
  fst (run rt cfg t0 t1 (start d)) = 0 ->
  (forall f, In f (walked cfg d) -> path f <> metadataFilePath cfg ->
             mtimeMs f < t0) ->
  let d1 := disk (snd (run rt cfg t0 t1 (start d))) in
  let r2 := run rt cfg t2 t3 (start d1) in
  watermark_of rt cfg d1 = Some (Some t0)
  /\ filter (eligible cfg (Some t0)) (walked cfg d1) = []
  /\ (exists bytes, submitted (snd r2) = [sidecar_task cfg bytes])
  /\ (forall c, In c (puts (snd r2)) -> fst c = metadataFilePath cfg).
Proof.
  intros Hp Hc Hold. cbn zeta.
  destruct (run_success_disk rt cfg t0 t1 d Hp Hc) as (m & _ & Hw & ->).
  set (m1 := next_metadata m t0 t1).
  set (d1 := writeFile_sidecar m1 (sidecar_bytes rt m1) t1 d).
  destruct (watermark_after_write rt cfg m t0 t1 (sidecar_bytes rt m1) t1 d)
    as (Hl1 & Hw1).
  fold m1 d1 in Hl1, Hw1.
  destruct (walk_after_write cfg (Some t0) m1 (sidecar_bytes rt m1) t1 d)
    as (Hk & Hf).
  fold d1 in Hk, Hf. rewrite Hw in Hk.
  assert (Hnone : filter (eligible cfg (Some t0)) (walked cfg d1) = []).
  { rewrite Hf.
    destruct (filter (eligible cfg (Some t0)) (walked cfg d)) as [|f l] eqn:E;
      [reflexivity|].
    assert (Hin : In f (filter (eligible cfg (Some t0)) (walked cfg d)))
      by (rewrite E; now left).
    apply filter_In in Hin. destruct Hin as (Hin & He).
    unfold eligible, shouldUpload in He. apply andb_prop in He.
    destruct He as (He1 & He2).
    apply negb_true_iff, String.eqb_neq in He1. apply Z.leb_le in He2.
    specialize (Hold f Hin He1). lia. }
  split; [exact Hw1|]. split; [exact Hnone|].
  destruct (run_spec rt cfg t2 t3 d1) as [H | (m2 & Hl2 & H)]; cbn zeta in H.
  - destruct H as (H & _). congruence.
  - rewrite Hl1 in Hl2. injection Hl2 as <-.
    replace (lastUploadTimeMs rt m1) with (Some t0) in H by reflexivity.
    rewrite Hnone in H. cbn [map List.length app] in H.
    destruct H as (_ & [H | [H | H]]).
    + destruct H as (H & _). congruence.
    + destruct H as (_ & _ & _ & _ & _ & _ & _ & H). cbn in H. lia.
    + destruct H as (_ & _ & _ & Hs & (Ha & _) & _).
      split; [eexists; exact Hs|].
      intros c Hc'. destruct (Ha c Hc') as (t & [<- | []] & ->). reflexivity.
Qed.

Lemma second_run_uploads_only_sidecar_witness :
  filter (eligible cfg_backup (Some 2000))
    (walked cfg_backup
       (disk (snd (run rt_ok cfg_backup 2000 2001 (start disk_two_files)))))
  = [].
Proof.
  apply (second_run_uploads_only_sidecar rt_ok cfg_backup 2000 2001 3000 3001
           disk_two_files eq_refl eq_refl).
  intros f [<- | [<- | []]] _; vm_compute; reflexivity.
Defined.

(** C9 as stated fails for a file modified after the first run started: with
    nothing changed between the two runs, the second run submits it again. *)
Lemma second_run_uploads_again :
  fst (run rt_ok cfg_backup 1000 1001 (start disk_two_files)) = 0
  /\ In (mkTask "/data/b.txt" 20 (Some 1500))
       (submitted (snd (run rt_ok cfg_backup 1000 1001 (start disk_two_files))))
  /\ fst (run rt_ok cfg_backup 3000 3001
            (start (disk_after rt_ok cfg_backup 1000 1001 disk_two_files))) = 0
  /\ In (mkTask "/data/b.txt" 20 (Some 1500))
       (submitted
          (snd (run rt_ok cfg_backup 3000 3001
                  (start (disk_after rt_ok cfg_backup 1000 1001 disk_two_files)))))
  /\ In ("/data/b.txt", "backups/b.txt")
       (puts
          (snd (run rt_ok cfg_backup 3000 3001
                  (start (disk_after rt_ok cfg_backup 1000 1001 disk_two_files))))).
Proof.
  repeat split; try reflexivity; vm_compute; tauto.
Qed.

(** * Further properties *)

(** ** withRetries with any budget *)


(** ** The walk *)

Lemma Dirent_nested_ind (P : Dirent -> Prop) :
  (forall n sz mt, P (DFile n sz mt)) ->
  (forall n err ents, Forall P ents -> P (DDir n err ents)) ->
  (forall n, P (DOther n)) ->
  forall d, P d.
Proof.
  intros Hf Hd Ho.
  fix IH 1. intros [n sz mt | n err ents | n].
  - apply Hf.
  - apply Hd. induction ents as [|d ents IHents]; constructor; [apply IH | exact IHents].
  - apply Ho.
Qed.

Lemma walk_seq_yield (visit : Dirent -> Yielded) (l : list Dirent) (f : Stats) :
  In f (fst (walk_seq visit l)) ->
  exists d0, In d0 l /\ In f (fst (visit d0)).
Proof.
  induction l as [|d l IH]; cbn [walk_seq]; [intros []|].
  destruct (visit d) as [ys [e|]] eqn:Hd.
  - cbn [fst]. intros Hin. exists d. rewrite Hd. split; [now left | exact Hin].
  - destruct (walk_seq visit l) as [zs r]. cbn [fst] in *.
    intros [Hin | Hin]%in_app_or.
    + exists d. rewrite Hd. split; [now left | exact Hin].
    + destruct (IH Hin) as (d0 & H1 & H2). exists d0. split; [now right | exact H2].
Qed.

Lemma walk_entry_sound (d : Dirent) :
  forall dir f,
    In f (fst (walk_entry dir d)) ->
    exists dir' n sz mt,
      visits dir d dir' (DFile n sz mt)
      /\ f = mkStats (path_join dir' n) sz mt.
Proof.
  induction d as [n sz mt | n err ents IH | n] using Dirent_nested_ind;
    intros dir f Hin.
  - destruct Hin as [<- | []]. exists dir, n, sz, mt. split; [constructor | reflexivity].
  - destruct err as [e|]; [destruct Hin|].
    rewrite walk_entry_dir in Hin.
    destruct (walk_seq_yield _ _ _ Hin) as (d0 & Hd0 & Hf).
    rewrite Forall_forall in IH.
    destruct (IH d0 Hd0 _ _ Hf) as (dir' & n' & sz & mt & Hv & ->).
    exists dir', n', sz, mt. split; [|reflexivity].
    econstructor; eauto.
  - destruct Hin.
Qed.

Lemma walked_sound (cfg : Config) (d : Disk) (f : Stats) :
  In f (walked cfg d) ->
  exists d0 dir' n sz mt,
    In d0 (root d)
    /\ visits (source cfg) d0 dir' (DFile n sz mt)
    /\ f = mkStats (path_join dir' n) sz mt.
Proof.
  unfold walked, walk. destruct (root_unreadable d); [intros []|].
  intros Hin. destruct (walk_seq_yield _ _ _ Hin) as (d0 & Hd0 & Hf).
  destruct (walk_entry_sound d0 _ _ Hf) as (dir' & n & sz & mt & Hv & Heq).
  exists d0, dir', n, sz, mt. auto.
Qed.

(** X2.  [walk] yields regular files only: every [Stats] it yields is that
    of a regular file met on the way down from the source directory, with the
    path of the directory it is in joined with its name; what is neither a
    directory nor a regular file is never yielded. *)
Theorem walk_yields_regular_files (cfg : Config) (d : Disk) (f : Stats) :
  In f (walked cfg d) ->
  exists d0 dir' n sz mt,
    In d0 (root d)
    /\ visits (source cfg) d0 dir' (DFile n sz mt)
    /\ f = mkStats (path_join dir' n) sz mt.
Proof. apply walked_sound. Qed.

Lemma walk_yields_regular_files_witness :
  exists d0 dir' n sz mt,
    In d0 (root disk_nested_sidecar)
    /\ visits (source cfg_backup) d0 dir' (DFile n sz mt)
    /\ mkStats "/data/sub/c.txt" 1 50 = mkStats (path_join dir' n) sz mt.
Proof.
  apply (walk_yields_regular_files cfg_backup disk_nested_sidecar).
  vm_compute. tauto.
Defined.








(** ** Paths and remote keys *)

Lemma prefix_append (a b : string) : String.prefix a (a ++ b) = true.
Proof.
  induction a as [|c a IH]; cbn.
  - destruct b; reflexivity.
  - destruct (ascii_dec c c); [exact IH | congruence].
Qed.

Lemma substring_all (b : string) : String.substring 0 (String.length b) b = b.
Proof. induction b as [|c b IH]; cbn; [reflexivity | now rewrite IH]. Qed.

Lemma substring_after (a b : string) :
  String.substring (String.length a)
    (String.length (a ++ b) - String.length a) (a ++ b) = b.
Proof.
  induction a as [|c a IH]; cbn [String.length append String.substring].
  - rewrite Nat.sub_0_r. apply substring_all.
  - exact IH.
Qed.


Lemma string_app_assoc (a b c : string) : (a ++ b) ++ c = a ++ b ++ c.
Proof. induction a as [|x a IH]; cbn; [reflexivity | now rewrite IH]. Qed.











(** ** The load *)

(** X6.  A sidecar that exists and cannot be read (an error of
    [fs.readFile] with a code other than [ENOENT], or with none), a sidecar
    that is not JSON, and a sidecar that holds [null] end the run at once:
    exit code 1, two error lines (the path of the file, then the error's
    message) and nothing else, no line printed, no task, no upload, the
    disk as it was. *)
Theorem unreadable_sidecar_is_fatal
    (rt : Runtime) (cfg : Config) (t0 t1 : Z) (d : Disk) (msg : string) :
  (exists e, sidecar d = ReadFails e /\ code e <> Some "ENOENT"
             /\ msg = message e)
  \/ sidecar d = Unparsable msg
  \/ (sidecar d = Parsed JNull
      /\ msg = message (TypeError_null "uploadStartTime")) ->
  run rt cfg t0 t1 (start d)
  = (1, mkState d [] ["Can't read metadata file (" ++ metadataFilePath cfg ++ ")";
                      msg] [] [] [] 0 0 0).
Proof.
  intros H. unfold run, main, bind, load. cbn [start disk].
  destruct H as [(e & -> & Hc & ->) | [-> | (-> & ->)]]; try reflexivity.
  destruct (code e) as [c|] eqn:Hcode; [|reflexivity].
  destruct (String.eqb c "ENOENT") eqn:Hc'; [|reflexivity].
  apply String.eqb_eq in Hc'. congruence.
Qed.

Lemma unreadable_sidecar_is_fatal_witness :
  run rt_ok cfg_backup 1000 1001 (start disk_denied)
  = (1, mkState disk_denied []
          ["Can't read metadata file (" ++ metadataFilePath cfg_backup ++ ")";
           "EACCES: permission denied"] [] [] [] 0 0 0).
Proof.
  apply (unreadable_sidecar_is_fatal rt_ok cfg_backup 1000 1001 disk_denied).
  left. eexists. split; [reflexivity|]. split; [discriminate | reflexivity].
Defined.

(** X7.  A sidecar that parses to anything but [null] and has no
    [uploadStartTime], or a falsy one ([null], [false], [0], the empty
    string), is an invalid metadata file: the run ends with exit code 1 and
    the one error line that says so; nothing is printed, submitted,
    uploaded or written. *)
Theorem falsy_start_time_is_invalid
    (rt : Runtime) (cfg : Config) (t0 t1 : Z) (d : Disk) (j : JSON) :
  sidecar d = Parsed j -> j <> JNull ->
  truthy (get_prop j "uploadStartTime") = false ->
  run rt cfg t0 t1 (start d)
  = (1, mkState d [] ["invalid metadata file (" ++ metadataFilePath cfg ++ ")"]
          [] [] [] 0 0 0).
Proof.
  intros Hs Hj Ht. unfold run, main, bind, load. cbn [start disk].
  rewrite Hs. destruct j; try congruence; rewrite Ht; reflexivity.
Qed.

Lemma falsy_start_time_is_invalid_witness :
  run rt_ok cfg_backup 1000 1001 (start disk_zero_start)
  = (1, mkState disk_zero_start []
          ["invalid metadata file (" ++ metadataFilePath cfg_backup ++ ")"]
          [] [] [] 0 0 0).
Proof.
  apply (falsy_start_time_is_invalid rt_ok cfg_backup 1000 1001 disk_zero_start
           (JObj [("uploadStartTime", JNum 0)])).
  - reflexivity.
  - discriminate.
  - reflexivity.
Defined.




(** ** The totals of a run *)

Lemma tasks_size_files (l : list Stats) :
  tasks_size (map task_of_file l) = total_size l.
Proof.
  unfold tasks_size, total_size.
  induction l as [|f l IH]; cbn; [reflexivity | now rewrite IH].
Qed.

Lemma scan_loop_totals (cfg : Config) (wm : option Z) (files : list Stats) :
  forall tf ts i st,
    let others := filter (other_than (metadataFilePath cfg)) files in
    fst (scan_loop cfg files wm tf ts i st)
    = (tf + Z.of_nat (List.length others), ts + total_size others)
    /\ totalUploadedSize (snd (scan_loop cfg files wm tf ts i st))
       = totalUploadedSize st
    /\ fileNum (snd (scan_loop cfg files wm tf ts i st)) = fileNum st.
Proof.
  induction files as [|f rest IH]; intros tf ts i st; cbn zeta.
  - cbn. rewrite !Z.add_0_r. auto.
  - cbn [scan_loop filter].
    assert (Ho : other_than (metadataFilePath cfg) f
                 = negb (String.eqb (path f) (metadataFilePath cfg)))
      by reflexivity.
    rewrite Ho. clear Ho.
    destruct (String.eqb (path f) (metadataFilePath cfg)); cbn [negb].
    + apply IH.
    + match goal with |- context [scan_loop _ _ _ ?a ?b ?c ?s] =>
        destruct (IH a b c s) as (H1 & H2 & H3) end.
      cbn zeta in *. rewrite H1, H2, H3. unfold total_size.
      cbn [List.length fold_right].
      split; [f_equal; lia|].
      destruct (shouldUpload (mtimeMs f) wm);
        destruct ((i + 1) mod 10000 =? 0); auto.
Qed.

Section Totals.
Variable rt : Runtime.
Variable cfg : Config.

Lemma run_tasks_done (tasks : list UploadTask) :
  forall failure st,
    fst (run_tasks rt cfg tasks failure st) = Ret tt ->
    totalUploadedSize (snd (run_tasks rt cfg tasks failure st))
    = totalUploadedSize st + tasks_size tasks
    /\ totalUploadedFiles (snd (run_tasks rt cfg tasks failure st))
       = totalUploadedFiles st + Z.of_nat (List.length tasks).
Proof.
  induction tasks as [|t rest IH]; intros failure st Hret.
  - cbn. lia.
  - cbn [run_tasks] in *.
    destruct (upload_task_spec rt cfg t st)
      as (errs & k & _ & _ & [Heq | (_ & e & Heq)]); rewrite Heq in *.
    + destruct (IH _ _ Hret) as (H1 & H2). rewrite H1, H2.
      unfold tasks_size. cbn [fold_right List.length].
      unfold count_uploaded, print_file_line, emit, console_log, incr_fileNum.
      destruct (quiet cfg); cbn; lia.
    + exfalso.
      destruct (run_tasks_failed rt cfg rest
                  (match failure with None => Some e | Some _ => failure end)
                  (emit errs (repeat (put_of cfg t) k) st)) as (e' & He').
      * destruct failure; discriminate.
      * congruence.
Qed.

Lemma waitIdle_done (st : State) :
  fst (waitIdle rt cfg st) = Ret tt ->
  totalUploadedSize (snd (waitIdle rt cfg st))
  = totalUploadedSize st + tasks_size (queue st)
  /\ totalUploadedFiles (snd (waitIdle rt cfg st))
     = totalUploadedFiles st + Z.of_nat (List.length (queue st)).
Proof. unfold waitIdle. intros H. apply (run_tasks_done _ _ _ H). Qed.

Lemma drain_done (st : State) :
  fst (drain rt cfg st) = Ret tt ->
  totalUploadedSize (snd (drain rt cfg st))
  = totalUploadedSize st + tasks_size (queue st)
  /\ totalUploadedFiles (snd (drain rt cfg st))
     = totalUploadedFiles st + Z.of_nat (List.length (queue st))
  /\ queue (snd (drain rt cfg st)) = [].
Proof.
  intros Hret.
  destruct (drain_spec rt cfg st) as (_ & Hq & _).
  split; [|split; [|exact Hq]]; revert Hret; unfold drain;
    set (st1 := if 1 <=? queue_size st then console_log LWaiting st else st);
    (assert (E : queue st1 = queue st /\ totalUploadedSize st1 = totalUploadedSize st
                 /\ totalUploadedFiles st1 = totalUploadedFiles st)
      by (unfold st1; destruct (1 <=? queue_size st); auto));
    destruct E as (E1 & E2 & E3);
    pose proof (waitIdle_done st1) as Hw;
    destruct (waitIdle rt cfg st1) as [[[]|e|c] st2]; cbn [fst snd] in *;
    try discriminate; intros _; destruct (Hw eq_refl) as (W1 & W2);
    rewrite E1, E2, E3 in *;
    destruct (1 <=? queue_size st); cbn; assumption.
Qed.

(** The last two lines of a run that ends with exit code 0. *)
Lemma run_report (t0 t1 : Z) (d : Disk) :
  fst (run rt cfg t0 t1 (start d)) = 0 ->
  exists m out,
    load cfg (start d) = (Ret m, start d)
    /\ let wm := lastUploadTimeMs rt m in
       let bytes := sidecar_bytes rt (next_metadata m t0 t1) in
       let all := filter (other_than (metadataFilePath cfg)) (walked cfg d) in
       let sent := filter (eligible cfg wm) (walked cfg d) in
       stdout (snd (run rt cfg t0 t1 (start d)))
       = (out ++ [LSummary (uploadedLabel cfg)
                    (Z.of_nat (List.length sent) + 1)
                    (Z.of_nat (List.length all) + 1)
                    (total_size sent + bytes)
                    (total_size all + bytes);
                  LDoneIn (t1 - t0)])%list
       /\ totalUploadedFiles (snd (run rt cfg t0 t1 (start d)))
          = Z.of_nat (List.length sent) + 1
       /\ totalUploadedSize (snd (run rt cfg t0 t1 (start d)))
          = total_size sent + bytes.
Proof.
  intros Hc. unfold run in *.
  destruct (main_cases rt cfg t0 t1 (start d))
    as [(errs & _ & Hm) | (m & Hl & Hrest)].
  { rewrite Hm in Hc. discriminate. }
  cbn zeta in Hrest.
  destruct Hrest as [(e & _ & Hm) | (totals & Hscan & Hrest)].
  { rewrite Hm in Hc. discriminate. }
  destruct Hrest as [(e & _ & Hm) | (Hdrain & Hm)].
  { rewrite Hm in Hc. discriminate. }
  set (wm := lastUploadTimeMs rt m) in *.
  set (st1 := snd (scan cfg wm (start d))) in *.
  (* the scan *)
  destruct (scan_spec cfg wm (start d)) as ((_ & _ & S3 & S4 & _) & _).
  fold st1 in S3, S4. cbn [start queue totalUploadedFiles app disk] in S3, S4.
  assert (Hscan' : totals
                   = (Z.of_nat (List.length
                        (filter (other_than (metadataFilePath cfg)) (walked cfg d))),
                      total_size
                        (filter (other_than (metadataFilePath cfg)) (walked cfg d)))
                   /\ totalUploadedSize st1 = 0).
  { revert Hscan. unfold st1, scan, walked. cbn [start disk].
    destruct (walk (source cfg) d) as [files thrown]. cbn [fst].
    destruct (scan_loop_totals cfg wm files 0 0 0 (start d)) as (T1 & T2 & _).
    destruct (scan_loop cfg files wm 0 0 0 (start d)) as [[tf ts] st'].
    cbn [fst snd] in *.
    destruct thrown; cbn [fst snd]; [intros H; discriminate H|].
    intros H. injection H as <-. injection T1 as -> ->.
    split; [reflexivity | exact T2]. }
  destruct Hscan' as (-> & S5).
  (* the drain *)
  destruct (drain_done st1 Hdrain) as (D1 & D2 & D3).
  rewrite S3, S4, S5, tasks_size_files, length_map in *.
  set (st2 := snd (drain rt cfg st1)) in *.
  (* the commit *)
  exists m. rewrite Hm in *. clear Hm.
  unfold commit, bind, effect in *.
  set (bytes := sidecar_bytes rt (next_metadata m t0 t1)) in *.
  set (st3 := upload (sidecar_task cfg bytes)
                (persist cfg (next_metadata m t0 t1) bytes t1 st2)) in *.
  assert (E : queue st3 = [sidecar_task cfg bytes]
              /\ totalUploadedSize st3 = totalUploadedSize st2
              /\ totalUploadedFiles st3 = totalUploadedFiles st2).
  { unfold st3, persist. destruct (onlyPrint cfg); cbn; rewrite D3; auto. }
  destruct E as (E1 & E2 & E3).
  pose proof (waitIdle_done st3) as Hw.
  destruct (waitIdle_spec rt cfg st3) as (_ & _ & _ & _ & _ & Hout).
  destruct (waitIdle rt cfg st3) as [out st4]. cbn [fst snd] in *.
  destruct Hout as [(-> & _) | (e & -> & _)]; [|cbn in Hc; discriminate Hc].
  destruct (Hw eq_refl) as (W1 & W2).
  rewrite E1, E2, E3, D1, D2 in *. cbn in W1, W2.
  exists (stdout st4). split; [exact Hl|]. cbn zeta.
  unfold report. cbn. rewrite <- app_assoc. cbn. rewrite W1, W2.
  subst wm. repeat split; try lia.
  do 3 f_equal; f_equal; lia.
Qed.
End Totals.

(** X9.  A run that ends with exit code 0 prints as its last two lines the
    totals and the time taken: the files and bytes uploaded are those of the
    eligible files plus the sidecar, the files and bytes in all are those of
    every file [walk] yields except the old sidecar, plus the sidecar just
    serialised; the time is the difference of the two clock readings. *)
Theorem run_reports_totals
    (rt : Runtime) (cfg : Config) (t0 t1 : Z) (d : Disk) :
  fst (run rt cfg t0 t1 (start d)) = 0 ->
  exists m out,
    load cfg (start d) = (Ret m, start d)
    /\ let wm := lastUploadTimeMs rt m in
       let bytes := sidecar_bytes rt (next_metadata m t0 t1) in
       let all := filter (other_than (metadataFilePath cfg)) (walked cfg d) in
       let sent := filter (eligible cfg wm) (walked cfg d) in
       stdout (snd (run rt cfg t0 t1 (start d)))
       = (out ++ [LSummary (uploadedLabel cfg)
                    (Z.of_nat (List.length sent) + 1)
                    (Z.of_nat (List.length all) + 1)
                    (total_size sent + bytes)
                    (total_size all + bytes);
                  LDoneIn (t1 - t0)])%list
       /\ totalUploadedFiles (snd (run rt cfg t0 t1 (start d)))
          = Z.of_nat (List.length sent) + 1
       /\ totalUploadedSize (snd (run rt cfg t0 t1 (start d)))
          = total_size sent + bytes.
Proof. apply run_report. Qed.

Lemma run_reports_totals_witness :
  exists m out,
    load cfg_backup (start disk_after_1000) = (Ret m, start disk_after_1000)
    /\ let wm := lastUploadTimeMs rt_ok m in
       let bytes := sidecar_bytes rt_ok (next_metadata m 2000 2001) in
       let all := filter (other_than (metadataFilePath cfg_backup))
                    (walked cfg_backup disk_after_1000) in
       let sent := filter (eligible cfg_backup wm)
                     (walked cfg_backup disk_after_1000) in
       stdout (snd (run rt_ok cfg_backup 2000 2001 (start disk_after_1000)))
       = (out ++ [LSummary (uploadedLabel cfg_backup)
                    (Z.of_nat (List.length sent) + 1)
                    (Z.of_nat (List.length all) + 1)
                    (total_size sent + bytes)
                    (total_size all + bytes);
                  LDoneIn (2001 - 2000)])%list
       /\ totalUploadedFiles
            (snd (run rt_ok cfg_backup 2000 2001 (start disk_after_1000)))
          = Z.of_nat (List.length sent) + 1
       /\ totalUploadedSize
            (snd (run rt_ok cfg_backup 2000 2001 (start disk_after_1000)))
          = total_size sent + bytes.
Proof.
  apply (run_reports_totals rt_ok cfg_backup 2000 2001 disk_after_1000).
  reflexivity.
Defined.

(** ** Invariants of a run *)

Section Invariant.
Variable rt : Runtime.
Variable cfg : Config.
Variable I : State -> Prop.

Hypothesis I_log :
  forall st l, is_file_line l = false -> I st -> I (console_log l st).
Hypothesis I_upload : forall st t, I st -> I (upload t st).
Hypothesis I_emit : forall st errs calls, I st -> I (emit errs calls st).
Hypothesis I_disk : forall st d, I st -> I (set_disk d st).
Hypothesis I_queue : forall st q, I st -> I (set_queue q st).
Hypothesis I_done :
  forall st t,
    I st ->
    I (count_uploaded (task_size t)
         (print_file_line cfg t (destination_of cfg t) st)).

Lemma inv_run_tasks (tasks : list UploadTask) :
  forall failure st, I st -> I (snd (run_tasks rt cfg tasks failure st)).
Proof.
  induction tasks as [|t rest IH]; intros failure st Hst; [exact Hst|].
  cbn [run_tasks].
  destruct (upload_task_spec rt cfg t st)
    as (errs & k & _ & _ & [Heq | (_ & e & Heq)]); rewrite Heq; apply IH; auto.
Qed.

Lemma inv_waitIdle (st : State) : I st -> I (snd (waitIdle rt cfg st)).
Proof. intros Hst. unfold waitIdle. apply inv_run_tasks. auto. Qed.

Lemma inv_scan (wm : option Z) (st : State) :
  I st -> I (snd (scan cfg wm st)).
Proof.
  intros Hst. unfold scan.
  destruct (walk (source cfg) (disk st)) as [files thrown].
  assert (H : forall tf ts i st0,
             I st0 -> I (snd (scan_loop cfg files wm tf ts i st0))).
  { clear Hst. induction files as [|f rest IH]; intros tf ts i st0 H0;
      [exact H0|].
    cbn [scan_loop].
    destruct (String.eqb (path f) (metadataFilePath cfg)); [now apply IH|].
    apply IH.
    destruct (shouldUpload (mtimeMs f) wm);
      destruct ((i + 1) mod 10000 =? 0); auto. }
  specialize (H 0 0 0 st Hst).
  destruct (scan_loop cfg files wm 0 0 0 st) as [[tf ts] st1].
  destruct thrown; exact H.
Qed.

Lemma inv_drain (st : State) : I st -> I (snd (drain rt cfg st)).
Proof.
  intros Hst. unfold drain.
  assert (H1 : I (if 1 <=? queue_size st then console_log LWaiting st else st))
    by (destruct (1 <=? queue_size st); auto).
  apply inv_waitIdle in H1.
  destruct (waitIdle rt cfg _) as [[[]|e|c] st2]; cbn [snd] in *; auto.
  destruct (1 <=? queue_size st); auto.
Qed.

Lemma inv_commit (m : JSON) (t0 t1 : Z) (totals : Z * Z) (st : State) :
  I st -> I (snd (commit rt cfg m t0 t1 totals st)).
Proof.
  intros Hst. unfold commit, bind, effect.
  set (st1 := upload _ _).
  assert (H1 : I st1)
    by (unfold st1, persist; destruct (onlyPrint cfg); auto).
  apply inv_waitIdle in H1.
  destruct (waitIdle rt cfg st1) as [[[]|e|c] st2]; cbn [snd] in *; auto.
  unfold report. auto.
Qed.

(** An invariant of the steps of a run holds when the run ends. *)
Lemma inv_run (t0 t1 : Z) (st : State) :
  I st -> I (snd (run rt cfg t0 t1 st)).
Proof.
  intros Hst. unfold run, main, bind.
  destruct (load_spec cfg st) as [(m & -> & _) | (errs & ->)]; [|cbn; auto].
  pose proof (inv_scan (lastUploadTimeMs rt m) st Hst) as H1.
  destruct (scan cfg (lastUploadTimeMs rt m) st) as [[totals|e|c] st1];
    cbn [snd] in *;
    [|unfold logError_thrown; rewrite logError_emit; auto | auto].
  pose proof (inv_drain st1 H1) as H2.
  destruct (drain rt cfg st1) as [[[]|e|c] st2]; cbn [snd] in *;
    [|unfold logError_thrown; rewrite logError_emit; auto | auto].
  pose proof (inv_commit m t0 t1 totals st2 H2) as H3.
  destruct (commit rt cfg m t0 t1 totals st2) as [[[]|e|c] st3];
    cbn [snd] in *;
    [auto | unfold logError_thrown; rewrite logError_emit; auto | auto].
Qed.
End Invariant.

Lemma line_numbers_app (a b : list OutLine) :
  line_numbers (a ++ b) = (line_numbers a ++ line_numbers b)%list.
Proof.
  induction a as [|l a IH]; [reflexivity|].
  destruct l; cbn; rewrite IH; reflexivity.
Qed.

Lemma line_numbers_length (out : list OutLine) :
  List.length (line_numbers out) = List.length (file_lines out).
Proof.
  unfold file_lines.
  induction out as [|l out IH]; [reflexivity|].
  destruct l; cbn; rewrite ?IH; reflexivity.
Qed.

Lemma line_numbers_other (out : list OutLine) (l : OutLine) :
  is_file_line l = false -> line_numbers (out ++ [l]) = line_numbers out.
Proof.
  intros Hl. rewrite line_numbers_app.
  destruct l; try discriminate; cbn; apply app_nil_r.
Qed.

(** X10.  The per-file lines of a run are numbered 1, 2, 3, ... in the
    order they are printed, without gap or repetition, whether uploads fail
    or not; outside quiet mode there is one such line for each task counted
    as uploaded, and in quiet mode there is none. *)
Theorem file_lines_are_numbered
    (rt : Runtime) (cfg : Config) (t0 t1 : Z) (d : Disk) :
  let st' := snd (run rt cfg t0 t1 (start d)) in
  line_numbers (stdout st') = count_to (List.length (file_lines (stdout st')))
  /\ (quiet cfg = false ->
      Z.of_nat (List.length (file_lines (stdout st'))) = totalUploadedFiles st')
  /\ (quiet cfg = true -> file_lines (stdout st') = []).
Proof.
  cbn zeta.
  set (I := fun st : State =>
              line_numbers (stdout st) = count_to (Z.to_nat (fileNum st))
              /\ 0 <= fileNum st
              /\ (quiet cfg = false -> fileNum st = totalUploadedFiles st)
              /\ (quiet cfg = true -> fileNum st = 0)).
  assert (H : I (snd (run rt cfg t0 t1 (start d)))).
  { apply inv_run; unfold I; clear I.
    - intros st l Hl (H1 & H2 & H3 & H4). cbn.
      rewrite line_numbers_other by exact Hl. auto.
    - intros st t H. exact H.
    - intros st errs calls H. exact H.
    - intros st d' H. exact H.
    - intros st q H. exact H.
    - intros st t (H1 & H2 & H3 & H4).
      unfold count_uploaded, print_file_line, console_log, incr_fileNum.
      destruct (quiet cfg) eqn:Hq; cbn.
      + repeat split; auto; discriminate.
      + rewrite line_numbers_app, H1. cbn [line_numbers].
        replace (Z.to_nat (fileNum st + 1)) with (S (Z.to_nat (fileNum st)))
          by lia.
        unfold count_to. rewrite seq_S, map_app. cbn [map Nat.add].
        repeat split; try lia; try discriminate.
        do 2 f_equal. lia.
    - cbn. repeat split; auto; lia. }
  destruct H as (H1 & H2 & H3 & H4).
  assert (Hlen : List.length (file_lines (stdout (snd (run rt cfg t0 t1 (start d)))))
                 = Z.to_nat (fileNum (snd (run rt cfg t0 t1 (start d))))).
  { rewrite <- line_numbers_length, H1. unfold count_to.
    now rewrite length_map, length_seq. }
  split; [rewrite Hlen; exact H1|]. split.
  - intros Hq. rewrite Hlen, <- (H3 Hq). lia.
  - intros Hq. apply length_zero_iff_nil. rewrite Hlen, (H4 Hq). reflexivity.
Qed.

(** ** The command line *)

Lemma startsWith_split (p s : string) :
  startsWith p s = true -> s = p ++ substring_from (String.length p) s.
Proof.
  unfold startsWith, substring_from. revert s.
  induction p as [|c p IH]; intros s H.
  - cbn. rewrite Nat.sub_0_r, substring_all. reflexivity.
  - destruct s as [|c' s]; [discriminate|]. cbn in H.
    destruct (ascii_dec c c') as [<-|]; [|discriminate].
    cbn [String.length append String.substring Nat.sub]. f_equal. now apply IH.
Qed.

Lemma substring_from_app (a b : string) :
  substring_from (String.length a) (a ++ b) = b.
Proof. apply substring_after. Qed.

Lemma startsWith_slash (rest : string) :
  startsWith "/" (String "/" rest) = true.
Proof. apply (prefix_append "/" rest). Qed.

Lemma substring_from_bucket (b rest : string) :
  substring_from (String.length b + 5) ("gs://" ++ b ++ rest) = rest.
Proof.
  rewrite <- string_app_assoc.
  replace (String.length b + 5)%nat with (String.length ("gs://" ++ b)).
  - apply substring_from_app.
  - rewrite length_append. cbn [String.length]. lia.
Qed.

Lemma bucket_group_sound (s b : string) :
  bucket_group s = Some b ->
  b <> "" /\ all_chars is_bucket_char b = true
  /\ exists rest, s = b ++ rest /\ slash_or_end rest = true.
Proof.
  revert b. induction s as [|c s IH]; intros b H; [discriminate|].
  cbn [bucket_group] in H.
  destruct (is_bucket_char c) eqn:Hc; [|discriminate].
  destruct (bucket_group s) as [b'|].
  - injection H as <-. destruct (IH b' eq_refl) as (_ & Ha & rest & -> & Hr).
    split; [discriminate|]. split; [cbn; now rewrite Hc|].
    exists rest. split; [reflexivity | exact Hr].
  - destruct (slash_or_end s) eqn:Hs; [|discriminate]. injection H as <-.
    split; [discriminate|]. split; [cbn; now rewrite Hc|].
    exists s. split; [reflexivity | exact Hs].
Qed.

Lemma bucket_group_boundary (rest : string) :
  slash_or_end rest = true -> bucket_group rest = None.
Proof.
  destruct rest as [|c rest]; [reflexivity|]. cbn [slash_or_end bucket_group].
  intros H. apply Ascii.eqb_eq in H. subst c. reflexivity.
Qed.

Lemma bucket_group_complete (b rest : string) :
  b <> "" -> all_chars is_bucket_char b = true -> slash_or_end rest = true ->
  bucket_group (b ++ rest) = Some b.
Proof.
  induction b as [|c b IH]; intros Hb Ha Hr; [congruence|].
  cbn [all_chars] in Ha. apply andb_prop in Ha. destruct Ha as (Hc & Ha).
  cbn [append bucket_group]. rewrite Hc.
  destruct b as [|c' b].
  - cbn [append]. rewrite (bucket_group_boundary rest Hr), Hr. reflexivity.
  - rewrite IH by (auto; discriminate). reflexivity.
Qed.

(** A character outside the class that is no separator, after characters of
    the class, makes the match fail. *)
Lemma bucket_group_stray (b : string) (c : ascii) (rest : string) :
  all_chars is_bucket_char b = true -> is_bucket_char c = false ->
  c <> "/"%char ->
  bucket_group (b ++ String c rest) = None.
Proof.
  intros Ha Hc Hs. induction b as [|x b IH].
  - cbn. now rewrite Hc.
  - cbn [all_chars] in Ha. apply andb_prop in Ha. destruct Ha as (Hx & Ha).
    cbn [append bucket_group]. rewrite Hx, (IH Ha).
    destruct b as [|y b]; cbn [append slash_or_end].
    + apply Ascii.eqb_neq in Hs. now rewrite Hs.
    + cbn [all_chars] in Ha. apply andb_prop in Ha. destruct Ha as (Hy & _).
      destruct (Ascii.eqb y "/") eqn:E; [|reflexivity].
      apply Ascii.eqb_eq in E. subst y. discriminate.
Qed.

(** The ways the start of the script ends. *)
Lemma startup_cases (join_cwd : string -> string) (source destination : string)
    (onlyPrint quiet : bool) :
  (exists msg, startup join_cwd source destination onlyPrint quiet = Refused msg
     /\ (startsWith "gs://" source = true
         \/ bucket_of destination = None))
  \/
  (exists bucket rest,
     startsWith "gs://" source = false
     /\ destination = "gs://" ++ bucket ++ rest
     /\ bucket <> "" /\ all_chars is_bucket_char bucket = true
     /\ slash_or_end rest = true
     /\ startup join_cwd source destination onlyPrint quiet
        = Ready (mkConfig (if isAbsolute source then source else join_cwd source)
                   (match rest with EmptyString => "/" | _ => rest end)
                   onlyPrint quiet)
            bucket).
Proof.
  unfold startup, bucket_of.
  destruct (startsWith "gs://" source); [left; eauto|].
  destruct (startsWith "gs://" destination) eqn:Hd; cbn [negb];
    [|left; eauto].
  apply startsWith_split in Hd.
  set (tail := substring_from (String.length "gs://") destination) in *.
  change (substring_from 5 destination) with tail.
  destruct (bucket_group tail) as [b|] eqn:Hb; [|left; eauto].
  destruct (bucket_group_sound tail b Hb) as (Hne & Ha & rest & Ht & Hr).
  right. exists b, rest. split; [reflexivity|].
  assert (Hdest : destination = "gs://" ++ b ++ rest) by (rewrite <- Ht; exact Hd).
  split; [exact Hdest|]. split; [exact Hne|]. split; [exact Ha|].
  split; [exact Hr|].
  destruct b as [|c b]; [congruence|].
  rewrite Hdest, substring_from_bucket.
  destruct rest as [|r rest]; [reflexivity|].
  cbn [slash_or_end] in Hr. apply Ascii.eqb_eq in Hr. subst r.
  now rewrite ?startsWith_slash.
Qed.

(** X11.  The command line is accepted exactly when the source does not
    start with [gs://] and the destination is [gs://], a bucket name made of
    one or more letters, digits, [_] and [-], and then nothing or a [/] and
    anything.  The bucket is that name; the destination directory is what
    follows it, or [/] when nothing does; the source is taken as it is when
    absolute and joined to the working directory otherwise. *)
Theorem startup_accepts_exactly (join_cwd : string -> string)
    (source destination : string) (onlyPrint quiet : bool)
    (cfg : Config) (bucket : string) :
  startup join_cwd source destination onlyPrint quiet = Ready cfg bucket
  <->
  (startsWith "gs://" source = false
   /\ bucket <> "" /\ all_chars is_bucket_char bucket = true
   /\ exists rest,
        destination = "gs://" ++ bucket ++ rest
        /\ slash_or_end rest = true
        /\ cfg = mkConfig (if isAbsolute source then source else join_cwd source)
                   (match rest with EmptyString => "/" | _ => rest end)
                   onlyPrint quiet).
Proof.
  split.
  - intros H.
    destruct (startup_cases join_cwd source destination onlyPrint quiet)
      as [(msg & Hs & _) | (b & rest & Hsrc & Hd & Hne & Ha & Hr & Hs)];
      rewrite Hs in H; [discriminate|].
    injection H as <- <-. eauto 10.
  - intros (Hsrc & Hne & Ha & rest & Hd & Hr & ->).
    unfold startup, bucket_of. rewrite Hsrc.
    assert (Hp : startsWith "gs://" destination = true)
      by (rewrite Hd; apply prefix_append).
    rewrite Hp. cbn [negb].
    assert (Ht : substring_from 5 destination = bucket ++ rest)
      by (rewrite Hd; apply (substring_from_app "gs://")).
    rewrite Ht, (bucket_group_complete bucket rest Hne Ha Hr).
    destruct bucket as [|c b]; [congruence|].
    rewrite Hd, substring_from_bucket. destruct rest as [|r rest]; [reflexivity|].
    cbn [slash_or_end] in Hr. apply Ascii.eqb_eq in Hr. subst r.
    now rewrite ?startsWith_slash.
Qed.

Lemma startup_accepts_exactly_witness :
  startup (fun s => "/home/user/" ++ s) "data" "gs://my-bucket/backups/"
    false true
  = Ready (mkConfig "/home/user/data" "/backups/" false true) "my-bucket".
Proof.
  apply (proj2 (startup_accepts_exactly (fun s => "/home/user/" ++ s) "data"
                  "gs://my-bucket/backups/" false true
                  (mkConfig "/home/user/data" "/backups/" false true)
                  "my-bucket")).
  split; [reflexivity|]. split; [discriminate|]. split; [reflexivity|].
  exists "/backups/". repeat split; reflexivity.
Defined.

(** X12.  The assignment to the constant [destinationDir] of line 145 is
    never reached: the start of the script ends with a refusal or with a
    destination directory that begins with [/], whatever the arguments. *)
Theorem startup_never_crashes (join_cwd : string -> string)
    (source destination : string) (onlyPrint quiet : bool) :
  (forall e, startup join_cwd source destination onlyPrint quiet <> Crashed e)
  /\ (forall cfg bucket,
        startup join_cwd source destination onlyPrint quiet = Ready cfg bucket ->
        startsWith "/" (destinationDir cfg) = true).
Proof.
  destruct (startup_cases join_cwd source destination onlyPrint quiet)
    as [(msg & Hs & _) | (b & rest & _ & _ & _ & _ & Hr & Hs)]; rewrite Hs.
  - split; intros; discriminate.
  - split; [intros; discriminate|].
    intros cfg bucket H. injection H as <- _. cbn [destinationDir].
    destruct rest as [|r rest]; [reflexivity|].
    cbn [slash_or_end] in Hr. apply Ascii.eqb_eq in Hr. subst r.
    now rewrite ?startsWith_slash.
Qed.

(** X13.  A destination whose bucket name holds a character other than a
    letter, a digit, [_] and [-] (a dot, say) is refused as an invalid
    destination, whatever follows it. *)
Theorem stray_bucket_character_is_refused (join_cwd : string -> string)
    (source : string) (onlyPrint quiet : bool)
    (name : string) (c : ascii) (rest : string) :
  startsWith "gs://" source = false ->
  all_chars is_bucket_char name = true ->
  is_bucket_char c = false -> c <> "/"%char ->
  startup join_cwd source ("gs://" ++ name ++ String c rest) onlyPrint quiet
  = Refused "invalid destination".
Proof.
  intros Hsrc Ha Hc Hs. unfold startup, bucket_of. rewrite Hsrc.
  rewrite prefix_append. cbn [negb].
  rewrite (substring_from_app "gs://"), (bucket_group_stray name c rest Ha Hc Hs).
  reflexivity.
Qed.

Lemma stray_bucket_character_is_refused_witness :
  startup (fun s => "/home/user/" ++ s) "data" "gs://my.bucket/backups" false false
  = Refused "invalid destination".
Proof.
  apply (stray_bucket_character_is_refused (fun s => "/home/user/" ++ s) "data"
           false false "my" "."%char "bucket/backups");
    [reflexivity | reflexivity | reflexivity | discriminate].
Defined.

(** ** humanFileSize *)

Lemma round_half_up_nearest (num den : Z) :
  0 < den ->
  let r := round_half_up num den in
  2 * den * r <= 2 * num + den < 2 * den * (r + 1).
Proof.
  intros Hd. cbn zeta. unfold round_half_up.
  pose proof (Z.mul_div_le (2 * num + den) (2 * den)).
  pose proof (Z.mul_succ_div_gt (2 * num + den) (2 * den)).
  lia.
Qed.

Lemma pow1024_pos (u : nat) : 0 < 1024 ^ Z.of_nat u.
Proof. apply Z.pow_pos_nonneg; lia. Qed.

Lemma pow1024_succ (u : nat) : 1024 ^ Z.of_nat (S u) = 1024 ^ Z.of_nat u * 1024.
Proof. rewrite Nat2Z.inj_succ, Z.pow_succ_r by lia. lia. Qed.

(** Where the loop stops: at the first unit at which the rounded value is
    below 1024, or at the last unit. *)
Lemma humanFileSize_loop_spec (left : nat) (abs10 : Z) :
  forall u,
    let r := humanFileSize_loop left abs10 (1024 ^ Z.of_nat (S u)) u in
    fst r = 1024 ^ Z.of_nat (S (snd r))
    /\ (u <= snd r <= u + left)%nat
    /\ (snd r = u \/ 10240 <= round_half_up abs10 (1024 ^ Z.of_nat (snd r)))
    /\ (round_half_up abs10 (fst r) < 10240 \/ snd r = (u + left)%nat).
Proof.
  induction left as [|left IH]; intros u; cbn zeta; cbn [humanFileSize_loop].
  - destruct (10240 <=? round_half_up abs10 (1024 ^ Z.of_nat (S u))) eqn:E;
      [|apply Z.leb_gt in E]; cbn [fst snd]; repeat split; try lia; auto.
  - destruct (10240 <=? round_half_up abs10 (1024 ^ Z.of_nat (S u))) eqn:E.
    + rewrite <- pow1024_succ.
      specialize (IH (S u)). cbn zeta in IH.
      destruct (humanFileSize_loop left abs10 (1024 ^ Z.of_nat (S (S u))) (S u))
        as [d u']. cbn [fst snd] in *.
      destruct IH as (I1 & I2 & I3 & I4).
      split; [exact I1|]. split; [lia|]. split.
      * right. destruct I3 as [-> | I3]; [|exact I3].
        apply Z.leb_le in E. exact E.
      * destruct I4 as [I4 | I4]; [left; exact I4 | right; lia].
    + cbn [fst snd]. apply Z.leb_gt in E. repeat split; try lia; auto.
Qed.

(** X14.  For a size of at least 1024 bytes (and below the point at which
    doubles stop being exact) [humanFileSize] shows a value between 1.0 and
    1023.9, with the sign of the size, in a unit from kB to PB, and the
    value shown is the nearest tenth of the size in that unit: they differ
    by at most a twentieth of the unit. *)
Theorem humanFileSize_nearest_tenth (bytes : Z) :
  1024 <= Z.abs bytes -> Z.abs bytes * 10 < 2 ^ 53 ->
  exists tenths u,
    humanFileSize bytes = InUnit tenths u
    /\ (u <= 4)%nat
    /\ 10 <= Z.abs tenths <= 10239
    /\ Z.sgn tenths = Z.sgn bytes
    /\ 2 * Z.abs (10 * Z.abs bytes - Z.abs tenths * 1024 ^ Z.of_nat (S u))
       <= 1024 ^ Z.of_nat (S u).
Proof.
  intros Hlo Hhi. unfold humanFileSize.
  destruct (Z.abs bytes <? 1024) eqn:E; [apply Z.ltb_lt in E; lia|]. clear E.
  pose proof (humanFileSize_loop_spec 7 (Z.abs bytes * 10) 0) as H.
  cbn zeta in H. change (1024 ^ Z.of_nat 1) with 1024 in H.
  destruct (humanFileSize_loop 7 (Z.abs bytes * 10) 1024 0) as [d u].
  cbn [fst snd] in H. destruct H as (-> & H2 & H3 & H4).
  set (a := Z.abs bytes * 10) in *.
  set (D := 1024 ^ Z.of_nat (S u)) in *.
  assert (HD : 0 < D) by apply pow1024_pos.
  pose proof (round_half_up_nearest a D HD) as Hr. cbn zeta in Hr.
  set (r := round_half_up a D) in *.
  assert (Hu : (u <= 4)%nat).
  { destruct H3 as [-> | H3]; [lia|].
    destruct (le_lt_dec u 4) as [|Hgt]; [assumption | exfalso].
    assert (HE : 0 < 1024 ^ Z.of_nat u) by apply pow1024_pos.
    pose proof (round_half_up_nearest a (1024 ^ Z.of_nat u) HE) as Hq.
    cbn zeta in Hq.
    assert (Hp : 1024 ^ 5 <= 1024 ^ Z.of_nat u)
      by (apply Z.pow_le_mono_r; lia).
    change (1024 ^ 5) with 1125899906842624 in Hp.
    change (2 ^ 53) with 9007199254740992 in Hhi.
    nia. }
  assert (Hge : 10 <= r).
  { destruct H3 as [-> | H3].
    - change D with 1024 in *. unfold a in *. lia.
    - assert (HE : 0 < 1024 ^ Z.of_nat u) by apply pow1024_pos.
      pose proof (round_half_up_nearest a (1024 ^ Z.of_nat u) HE) as Hq.
      cbn zeta in Hq.
      assert (HDE : D = 1024 ^ Z.of_nat u * 1024) by apply pow1024_succ.
      nia. }
  assert (Hlt : r < 10240) by (destruct H4 as [H4 | H4]; [exact H4 | lia]).
  exists (Z.sgn bytes * r), u. split; [reflexivity|]. split; [exact Hu|].
  assert (Habs : Z.abs (Z.sgn bytes * r) = r).
  { destruct bytes; cbn [Z.sgn Z.abs] in *; lia. }
  rewrite Habs. split; [lia|]. split.
  - destruct bytes; cbn [Z.sgn Z.abs] in *; lia.
  - replace (10 * Z.abs bytes) with a by (unfold a; lia). lia.
Qed.

Lemma humanFileSize_nearest_tenth_witness :
  exists tenths u,
    humanFileSize 1048525 = InUnit tenths u
    /\ (u <= 4)%nat
    /\ 10 <= Z.abs tenths <= 10239
    /\ Z.sgn tenths = Z.sgn 1048525
    /\ 2 * Z.abs (10 * Z.abs 1048525 - Z.abs tenths * 1024 ^ Z.of_nat (S u))
       <= 1024 ^ Z.of_nat (S u).
Proof.
  apply (humanFileSize_nearest_tenth 1048525); vm_compute; congruence.
Defined.

(** ** From one run to the next *)

(** X15.  After a run that wrote the sidecar and ended with exit code 0, the
    next run on the disk as that run left it submits a data file exactly
    when the file was modified at or after the instant the first run
    started: a file modified while the first run was under way is taken
    again, and no older file is. *)
Theorem next_run_submits_files_modified_since_start
    (rt : Runtime) (cfg : Config) (t0 t1 t2 t3 : Z) (d : Disk) :
  onlyPrint cfg = false ->
  fst (run rt cfg t0 t1 (start d)) = 0 ->
  let d1 := disk (snd (run rt cfg t0 t1 (start d))) in
  let r2 := run rt cfg t2 t3 (start d1) in
  forall f,
    In f (walked cfg d) -> path f <> metadataFilePath cfg ->
    (In (task_of_file f) (submitted (snd r2)) <-> t0 <= mtimeMs f).
Proof.
  intros Hp Hc. cbn zeta.
  destruct (run_success_disk rt cfg t0 t1 d Hp Hc) as (m & _ & Hw & ->).
  set (m1 := next_metadata m t0 t1).
  set (d1 := writeFile_sidecar m1 (sidecar_bytes rt m1) t1 d).
  destruct (watermark_after_write rt cfg m t0 t1 (sidecar_bytes rt m1) t1 d)
    as (Hl1 & Hw1).
  fold m1 d1 in Hl1, Hw1.
  destruct (walk_after_write cfg (Some t0) m1 (sidecar_bytes rt m1) t1 d)
    as (Hk & Hf).
  fold d1 in Hk, Hf. rewrite Hw in Hk.
  intros f Hin Hpath.
  set (tasks := map task_of_file (filter (eligible cfg (Some t0)) (walked cfg d))).
  assert (Htasks : In (task_of_file f) tasks <-> t0 <= mtimeMs f).
  { unfold tasks. rewrite in_map_iff. split.
    - intros (g & Hg & Hing). apply task_of_file_injective in Hg. subst g.
      apply filter_In in Hing. destruct Hing as (_ & He).
      unfold eligible, shouldUpload in He. apply andb_prop in He.
      destruct He as (_ & He). now apply Z.leb_le in He.
    - intros Hle. exists f. split; [reflexivity|].
      apply filter_In. split; [exact Hin|].
      unfold eligible, shouldUpload. apply andb_true_intro. split.
      + apply negb_true_iff, String.eqb_neq. exact Hpath.
      + now apply Z.leb_le. }
  assert (Hsub : submitted (snd (run rt cfg t2 t3 (start d1))) = tasks
                 \/ exists bytes,
                      submitted (snd (run rt cfg t2 t3 (start d1)))
                      = (tasks ++ [sidecar_task cfg bytes])%list).
  { destruct (run_spec rt cfg t2 t3 d1) as [H | (m2 & Hl2 & H)]; cbn zeta in H.
    - destruct H as (H & _). congruence.
    - rewrite Hl1 in Hl2. injection Hl2 as <-.
      replace (lastUploadTimeMs rt m1) with (Some t0) in H by reflexivity.
      rewrite Hf in H. fold tasks in H.
      destruct H as (_ & [H | [H | H]]).
      + destruct H as (H & _). congruence.
      + left. apply H.
      + right. eexists. apply H. }
  destruct Hsub as [-> | (bytes & ->)]; [exact Htasks|].
  rewrite in_app_iff, Htasks. split; [|auto].
  intros [H | [H | []]]; [exact H | discriminate H].
Qed.

Lemma next_run_submits_files_modified_since_start_witness :
  In (task_of_file (mkStats "/data/b.txt" 20 1500))
    (submitted
       (snd (run rt_ok cfg_backup 3000 3001
               (start (disk (snd (run rt_ok cfg_backup 1000 1001
                                    (start disk_two_files)))))))).
Proof.
  apply (next_run_submits_files_modified_since_start rt_ok cfg_backup
           1000 1001 3000 3001 disk_two_files eq_refl eq_refl
           (mkStats "/data/b.txt" 20 1500)).
  - vm_compute. tauto.
  - vm_compute. discriminate.
  - vm_compute. discriminate.
Defined.

(** X16.  What [--print] announces is what a run without it submits: when
    the run without [--print] ends with exit code 0, the run with it on the
    same disk and at the same instants ends with exit code 0, has submitted
    the same tasks in the same order and counts the same files and bytes. *)
Theorem print_only_predicts_run
    (rt : Runtime) (src dst : string) (q : bool) (t0 t1 : Z) (d : Disk) :
  let real := run rt (mkConfig src dst false q) t0 t1 (start d) in
  let dry := run rt (mkConfig src dst true q) t0 t1 (start d) in
  fst real = 0 ->
  fst dry = 0
  /\ submitted (snd dry) = submitted (snd real)
  /\ totalUploadedFiles (snd dry) = totalUploadedFiles (snd real)
  /\ totalUploadedSize (snd dry) = totalUploadedSize (snd real).
Proof.
  cbn zeta. set (cr := mkConfig src dst false q).
  set (cp := mkConfig src dst true q). intros Hc.
  assert (Hdry : fst (run rt cp t0 t1 (start d)) = 0
                 /\ submitted (snd (run rt cp t0 t1 (start d)))
                    = submitted (snd (run rt cr t0 t1 (start d)))).
  { destruct (run_spec rt cr t0 t1 d) as [H | (m & Hl & H)]; cbn zeta in H;
      [destruct H as (_ & H & _); lia|].
    destruct H as (Hwm & [H | [H | H]]);
      [destruct H as (_ & H & _); lia | destruct H as (_ & _ & H & _); lia|].
    destruct H as (Hw & _ & _ & Hs & _). rewrite Hs.
    destruct (run_spec rt cp t0 t1 d) as [H | (m' & Hl' & H)]; cbn zeta in H.
    - destruct H as (H & _).
      change (watermark_of rt cp d) with (watermark_of rt cr d) in H.
      congruence.
    - change (load cp (start d)) with (load cr (start d)) in Hl'.
      rewrite Hl in Hl'. injection Hl' as <-.
      change (walk (source cp) d) with (walk (source cr) d) in H.
      destruct H as (_ & [H | [H | H]]).
      + destruct H as (H & _). congruence.
      + destruct H as (_ & H & _). discriminate H.
      + destruct H as (_ & _ & _ & Hs' & _ & _ & [(H & _) | (_ & H & _)]);
          [|discriminate H].
        split; [exact H|]. rewrite Hs'. reflexivity. }
  destruct Hdry as (Hd0 & Hsub). split; [exact Hd0|]. split; [exact Hsub|].
  destruct (run_report rt cr t0 t1 d Hc) as (m & out & Hl & _ & R1 & R2).
  destruct (run_report rt cp t0 t1 d Hd0) as (m' & out' & Hl' & _ & P1 & P2).
  change (load cp (start d)) with (load cr (start d)) in Hl'.
  rewrite Hl in Hl'. injection Hl' as <-.
  rewrite R1, R2, P1, P2. split; reflexivity.
Qed.

Lemma print_only_predicts_run_witness :
  fst (run rt_ok (mkConfig "/data" "/backups/" true false) 1000 1001
         (start disk_two_files)) = 0
  /\ submitted (snd (run rt_ok (mkConfig "/data" "/backups/" true false)
                       1000 1001 (start disk_two_files)))
     = submitted (snd (run rt_ok (mkConfig "/data" "/backups/" false false)
                         1000 1001 (start disk_two_files)))
  /\ totalUploadedFiles (snd (run rt_ok (mkConfig "/data" "/backups/" true false)
                                1000 1001 (start disk_two_files)))
     = totalUploadedFiles (snd (run rt_ok (mkConfig "/data" "/backups/" false false)
                                  1000 1001 (start disk_two_files)))
  /\ totalUploadedSize (snd (run rt_ok (mkConfig "/data" "/backups/" true false)
                               1000 1001 (start disk_two_files)))
     = totalUploadedSize (snd (run rt_ok (mkConfig "/data" "/backups/" false false)
                                 1000 1001 (start disk_two_files))).
Proof.
  apply (print_only_predicts_run rt_ok "/data" "/backups/" false 1000 1001
           disk_two_files).
  reflexivity.
Defined.
